(** * Collaboration network of CORDISPlotter.plot_collaboration_network

    A shallow embedding of the filtering and aggregation code of
    [CORDISPlotter.plot_collaboration_network] (collaboration-network
    notebook): the two pandas tables are lists of row records, every
    [df[mask]] is a [filter], exceptions are an error result, the
    [Counter] is an insertion-ordered association list and the
    [networkx.Graph] is a node list with an undirected, weighted edge list.

    Library behaviour the embedding writes out (pandas 2.x, networkx):
    - [Series.astype(str)] turns a missing value (NaN) into the text "nan";
    - [Series.astype(float)] raises ValueError on text that [float()]
      rejects, and gives a float64, which may be NaN or an infinity;
    - [Series.str.contains] compiles its pattern as a regular expression,
      whatever the column holds, raises [re.error] when it does not
      compile, and searches each text;
    - [groupby] orders the groups by ascending key;
    - [DataFrame.head(n)] with a negative [n] keeps all but the last [-n] rows;
    - [Series.apply] on an empty Series gives an empty object Series, which
      [DataFrame.__getitem__] does not take for a boolean mask: it selects
      no column, and the next read of a column raises KeyError.  This
      holds for the masks of the field block and of the project-type loop
      on an empty project frame, and for the mask on the participant
      count on an empty [collab_df];
    - [Graph.add_edge] on an edge that exists, in either direction,
      overwrites its attributes.
    What [float()] accepts, the rounding to float64 and the regular
    expressions are taken from a [library] record, over which the
    theorems are stated.  Layout coordinates and the plotly traces are
    not part of the embedding. *)

From Stdlib Require Import List String Ascii Bool Arith ZArith QArith Lia FinFun Sorted.
Import ListNotations.

Local Open Scope string_scope.
Local Open Scope list_scope.

(** ** Errors *)

Inductive error : Type :=
| AssertionError
| ValueError
| KeyError
| ReError.

Inductive result (A : Type) : Type :=
| Ok (a : A)
| Raise (e : error).

Arguments Ok {A} a.
Arguments Raise {A} e.

Definition bind {A B : Type} (r : result A) (k : A -> result B) : result B :=
  match r with
  | Ok a => k a
  | Raise e => Raise e
  end.

Notation "x <- r ;; k" := (bind r (fun x => k))
  (at level 61, r at next level, right associativity).

(** ** Tables *)

(** A cell of the [contribution] column: missing, a number, or text. *)
Inductive cell : Type :=
| NaN
| Num (q : Q)
| Str (s : string).

(** A row of [project_df].  [None] is a value that is not a [str]. *)
Record project_row : Type := {
  p_projectID : Z;
  sci_voc_titles : option string;
  fundingScheme : option string
}.

(** A row of [organization_df].  [None] is a missing value (NaN). *)
Record org_row : Type := {
  projectID : Z;
  name : string;
  activityType : option string;
  country : option string;
  discipline : option string;
  startDate : option string;
  contribution : cell
}.

Record tables : Type := {
  project_df : list project_row;
  organization_df : list org_row
}.

(** ** Arguments of the call *)

(** [org_types]: [None], a list, or an object of another type. *)
Inductive org_types_arg : Type :=
| OTNone
| OTList (l : list string)
| OTOther.

Record config : Type := {
  field_filter : option string;
  org_types : org_types_arg;
  max_projects : Z;
  min_participants : Z;
  countries : option (list string);
  disciplines : option (list string);
  year : option string;
  contribution_min : option Q;
  project_type : option (list string)
}.

(** The defaults of the signature. *)
Definition default_config : config := {|
  field_filter := None;
  org_types := OTNone;
  max_projects := 1000;
  min_participants := 2;
  countries := None;
  disciplines := None;
  year := None;
  contribution_min := None;
  project_type := None
|}.

(** ** Python and pandas primitives *)

(** [pat in s] on two [str]. *)
Fixpoint str_in (pat s : string) : bool :=
  String.prefix pat s ||
  match s with
  | EmptyString => false
  | String _ s' => str_in pat s'
  end.

(** [astype(str)] on one value. *)
Definition astype_str (v : option string) : string :=
  match v with
  | Some s => s
  | None => "nan"
  end.

(** [isin(values)] on one value. *)
Definition isin (v : string) (values : list string) : bool :=
  existsb (String.eqb v) values.

Definition isin_id (v : Z) (values : list Z) : bool :=
  existsb (Z.eqb v) values.

(** Truth value of an optional [str], list and number argument. *)
Definition truthy_str (a : option string) : bool :=
  match a with
  | Some (String _ _) => true
  | _ => false
  end.

Definition truthy_list {A : Type} (a : option (list A)) : bool :=
  match a with
  | Some (_ :: _) => true
  | _ => false
  end.

Definition truthy_num (a : option Q) : bool :=
  match a with
  | Some q => negb (Qeq_bool q 0)
  | None => false
  end.

Definition arg_str (a : option string) : string :=
  match a with Some s => s | None => "" end.

Definition arg_list {A : Type} (a : option (list A)) : list A :=
  match a with Some l => l | None => [] end.

(** [lambda x: pat in x if isinstance(x, str) else False]. *)
Definition str_in_cell (pat : string) (v : option string) : bool :=
  match v with
  | Some s => str_in pat s
  | None => false
  end.

(** [DataFrame.head(n)]. *)
Definition head {A : Type} (n : Z) (l : list A) : list A :=
  if (0 <=? n)%Z then firstn (Z.to_nat n) l
  else firstn (List.length l - Z.to_nat (- n)) l.

(** [drop_duplicates()]: the first occurrence of each row is kept. *)
Section DropDuplicates.
Context {A : Type} (eqb : A -> A -> bool).

Fixpoint drop_duplicates_from (seen l : list A) : list A :=
  match l with
  | [] => []
  | x :: l' =>
      if existsb (eqb x) seen then drop_duplicates_from seen l'
      else x :: drop_duplicates_from (x :: seen) l'
  end.

Definition drop_duplicates (l : list A) : list A :=
  drop_duplicates_from [] l.
End DropDuplicates.

(** The keys of a [groupby]: distinct, ascending. *)
Fixpoint insert_key (k : Z) (l : list Z) : list Z :=
  match l with
  | [] => [k]
  | x :: l' =>
      if (k <? x)%Z then k :: l
      else if (k =? x)%Z then l
      else x :: insert_key k l'
  end.

Definition group_keys (ids : list Z) : list Z :=
  fold_right insert_key [] ids.

(** [itertools.combinations(names, 2)]. *)
Fixpoint combinations {A : Type} (l : list A) : list (A * A) :=
  match l with
  | [] => []
  | x :: l' => map (pair x) l' ++ combinations l'
  end.

(** [collections.Counter(edge_list)]: a dict, in insertion order. *)
Section Counter.
Context {K : Type} (eqb : K -> K -> bool).

Fixpoint counter_add (k : K) (c : list (K * nat)) : list (K * nat) :=
  match c with
  | [] => [(k, 1%nat)]
  | (k', n) :: c' =>
      if eqb k k' then (k', S n) :: c'
      else (k', n) :: counter_add k c'
  end.

Definition Counter (l : list K) : list (K * nat) :=
  fold_left (fun c k => counter_add k c) l [].

Fixpoint counter_get (c : list (K * nat)) (k : K) : option nat :=
  match c with
  | [] => None
  | (k', n) :: c' => if eqb k k' then Some n else counter_get c' k
  end.

(** The count read as a number: 0 for a key that is absent. *)
Definition count_of (c : list (K * nat)) (k : K) : nat :=
  match counter_get c k with
  | Some n => n
  | None => 0%nat
  end.

(** The number of elements of [l] equal to [k]. *)
Definition occurrences (k : K) (l : list K) : nat :=
  List.length (filter (eqb k) l).

Definition counts_positive (c : list (K * nat)) : Prop :=
  forall k n, In (k, n) c -> (1 <= n)%nat.
End Counter.

Definition edge_eqb (e1 e2 : string * string) : bool :=
  String.eqb (fst e1) (fst e2) && String.eqb (snd e1) (snd e2).

(** ** networkx.Graph *)

Record Graph : Type := {
  nodes : list string;
  edges : list (string * string * nat)
}.

Definition empty_graph : Graph := {| nodes := []; edges := [] |}.

Definition add_node (u : string) (ns : list string) : list string :=
  if existsb (String.eqb u) ns then ns else ns ++ [u].

(** The two ends of an undirected edge, in either order. *)
Definition same_edge (u v a b : string) : bool :=
  (String.eqb u a && String.eqb v b) || (String.eqb u b && String.eqb v a).

Fixpoint set_weight (u v : string) (w : nat) (es : list (string * string * nat))
  : list (string * string * nat) :=
  match es with
  | [] => [(u, v, w)]
  | (a, b, w') :: es' =>
      if same_edge u v a b then (a, b, w) :: es'
      else (a, b, w') :: set_weight u v w es'
  end.

(** [G.add_edge(u, v, weight=w)]. *)
Definition add_edge (u v : string) (w : nat) (G : Graph) : Graph :=
  {| nodes := add_node v (add_node u (nodes G));
     edges := set_weight u v w (edges G) |}.

(** [G[u][v]['weight']], when the edge is there. *)
Fixpoint edge_weight_in (es : list (string * string * nat)) (u v : string)
  : option nat :=
  match es with
  | [] => None
  | (a, b, w) :: es' =>
      if same_edge u v a b then Some w else edge_weight_in es' u v
  end.

Definition edge_weight (G : Graph) (u v : string) : option nat :=
  edge_weight_in (edges G) u v.

(** Every edge joins two names related by [Pe] and has a weight in [Pw]. *)
Definition edges_satisfy (Pe : string -> string -> Prop) (Pw : nat -> Prop)
  (es : list (string * string * nat)) : Prop :=
  forall a b w, In (a, b, w) es -> Pe a b /\ Pw w.

(** No two edges of the list join the same two names. *)
Fixpoint distinct_edges (es : list (string * string * nat)) : Prop :=
  match es with
  | [] => True
  | (a, b, _) :: es' =>
      (forall a' b' w', In (a', b', w') es' -> same_edge a b a' b' = false) /\
      distinct_edges es'
  end.

(** The shape [add_edge] keeps: no node twice, both ends of every edge
    are nodes, every node is an end of an edge, one edge per two names. *)
Definition well_formed (G : Graph) : Prop :=
  NoDup (nodes G) /\
  (forall a b w, In (a, b, w) (edges G) -> In a (nodes G) /\ In b (nodes G)) /\
  (forall x, In x (nodes G) ->
             exists a b w, In (a, b, w) (edges G) /\ (x = a \/ x = b)) /\
  distinct_edges (edges G).

(** ** The plotting method *)

Record Figure : Type := {
  graph : Graph;
  title : string
}.

Definition frames : Type := (list project_row * list org_row)%type.

Definition pair_eqb (a b : Z * string) : bool :=
  Z.eqb (fst a) (fst b) && String.eqb (snd a) (snd b).

(** [df[mask]] with the mask given as a column of booleans. *)
Definition boolean_index {A : Type} (l : list A) (mask : list bool) : list A :=
  map fst (filter snd (combine l mask)).

(** A float64 value: not-a-number, an infinity, or a finite value. *)
Inductive float64 : Type :=
| FNaN
| FInf (negative : bool)
| FNum (q : Q).

(** What the method takes from Python and its libraries:
    [float_of_str s] is [float(s)] on a [str], [None] where it raises
    ValueError; [round64 q] is the float64 nearest to a number;
    [re_compile pat] is [re.compile(pat)], [None] where it raises
    [re.error], otherwise the test [pat.search(s) is not None]. *)
Record library : Type := {
  float_of_str : string -> option float64;
  round64 : Q -> Q;
  re_compile : string -> option (string -> bool)
}.

(** [x >= th] on float64 values, for a finite [th]; NaN compares false. *)
Definition ge_threshold (th : Q) (v : float64) : bool :=
  match v with
  | FNaN => false
  | FInf negative => negb negative
  | FNum q => Qle_bool th q
  end.

(** [df_org[df_org['projectID'].isin(df_proj['projectID'].unique())]]. *)
Definition restrict_to_projects (df_proj : list project_row)
  (df_org : list org_row) : list org_row :=
  let project_ids := drop_duplicates Z.eqb (map p_projectID df_proj) in
  filter (fun r => isin_id (projectID r) project_ids) df_org.

Definition is_nil {A : Type} (l : list A) : bool :=
  match l with
  | [] => true
  | _ :: _ => false
  end.

Section Plotter.
Variable py : library.

(** [astype(float)] on one cell. *)
Definition astype_float (c : cell) : result float64 :=
  match c with
  | NaN => Ok FNaN
  | Num q => Ok (FNum (round64 py q))
  | Str s =>
      match float_of_str py s with
      | Some v => Ok v
      | None => Raise ValueError
      end
  end.

(** [astype(float)] on a column: the first bad cell raises. *)
Fixpoint column_astype_float (col : list cell) : result (list float64) :=
  match col with
  | [] => Ok []
  | c :: col' =>
      v <- astype_float c ;;
      vs <- column_astype_float col' ;;
      Ok (v :: vs)
  end.

(** The field block.  Its mask is built with [Series.apply]: on an empty
    [df_proj] the mask is an empty object Series, the selection drops
    every column and [df_proj['projectID']] raises KeyError. *)
Definition step_field (a : option string) (st : frames) : result frames :=
  if truthy_str a then
    if is_nil (fst st) then Raise KeyError
    else
      let df_proj :=
        filter (fun p => str_in_cell (arg_str a) (sci_voc_titles p)) (fst st) in
      Ok (df_proj, restrict_to_projects df_proj (snd st))
  else Ok st.

Definition resolve_org_types (a : org_types_arg) : result (list string) :=
  match a with
  | OTNone => Ok ["HES"; "REC"; "PUB"; "PRC"; "SME"]
  | OTList l => Ok l
  | OTOther => Raise AssertionError
  end.

Definition step_org_types (types : list string) (df_org : list org_row)
  : list org_row :=
  if truthy_list (Some types) then
    filter (fun r => isin (astype_str (activityType r)) types) df_org
  else df_org.

Definition step_countries (a : option (list string)) (df_org : list org_row)
  : list org_row :=
  if truthy_list a then
    filter (fun r => isin (astype_str (country r)) (arg_list a)) df_org
  else df_org.

(** [str.contains(pat, na=False)] compiles [pat] as a regular expression,
    whatever the column holds, and searches each text. *)
Definition discipline_filter (d : string) (df_org : list org_row)
  : result (list org_row) :=
  match re_compile py d with
  | Some found =>
      Ok (filter (fun r => found (astype_str (discipline r))) df_org)
  | None => Raise ReError
  end.

Fixpoint discipline_loop (ds : list string) (df_org : list org_row)
  : result (list org_row) :=
  match ds with
  | [] => Ok df_org
  | d :: ds' =>
      df_org <- discipline_filter d df_org ;;
      discipline_loop ds' df_org
  end.

Definition step_disciplines (a : option (list string))
  (df_org : list org_row) : result (list org_row) :=
  if truthy_list a then discipline_loop (arg_list a) df_org else Ok df_org.

Definition step_year (a : option string) (df_org : list org_row)
  : result (list org_row) :=
  if truthy_str a then
    match re_compile py (arg_str a) with
    | Some found =>
        Ok (filter (fun r => found (astype_str (startDate r))) df_org)
    | None => Raise ReError
    end
  else Ok df_org.

Definition contribution_filter (th : Q) (df_org : list org_row)
  : result (list org_row) :=
  col <- column_astype_float (map contribution df_org) ;;
  Ok (boolean_index df_org (map (ge_threshold (round64 py th)) col)).

Definition step_contribution (a : option Q) (df_org : list org_row)
  : result (list org_row) :=
  if truthy_num a then
    match a with
    | Some th => contribution_filter th df_org
    | None => Ok df_org
    end
  else Ok df_org.

(** One turn of the project-type loop; the mask is built with
    [Series.apply], as in the field block. *)
Definition project_type_filter (call : string) (st : frames) : result frames :=
  if is_nil (fst st) then Raise KeyError
  else
    let df_proj :=
      filter (fun p => str_in_cell call (fundingScheme p)) (fst st) in
    Ok (df_proj, restrict_to_projects df_proj (snd st)).

Fixpoint project_type_loop (calls : list string) (st : frames)
  : result frames :=
  match calls with
  | [] => Ok st
  | call :: calls' =>
      st <- project_type_filter call st ;;
      project_type_loop calls' st
  end.

Definition step_project_type (a : option (list string)) (st : frames)
  : result frames :=
  if truthy_list a then project_type_loop (arg_list a) st else Ok st.

(** The filter blocks, in the order of the method. *)
Definition filter_engine (cfg : config) (t : tables) : result frames :=
  types <- resolve_org_types (org_types cfg) ;;
  st <- step_field (field_filter cfg) (project_df t, organization_df t) ;;
  let df_proj := fst st in
  let df_org := step_org_types types (snd st) in
  let df_org := step_countries (countries cfg) df_org in
  df_org <- step_disciplines (disciplines cfg) df_org ;;
  df_org <- step_year (year cfg) df_org ;;
  df_org <- step_contribution (contribution_min cfg) df_org ;;
  step_project_type (project_type cfg) (df_proj, df_org).

(** The two frames as they reach the contribution block. *)
Definition before_contribution (cfg : config) (types : list string)
  (t : tables) : result frames :=
  st <- step_field (field_filter cfg) (project_df t, organization_df t) ;;
  let df_org := step_org_types types (snd st) in
  let df_org := step_countries (countries cfg) df_org in
  df_org <- step_disciplines (disciplines cfg) df_org ;;
  df_org <- step_year (year cfg) df_org ;;
  Ok (fst st, df_org).

(** [df_org[['projectID', 'name']].drop_duplicates()]. *)
Definition project_name_pairs (df_org : list org_row) : list (Z * string) :=
  drop_duplicates pair_eqb (map (fun r => (projectID r, name r)) df_org).

(** [groupby('projectID')['name'].apply(list).reset_index()]. *)
Definition groupby_names (pairs : list (Z * string))
  : list (Z * list string) :=
  map (fun k => (k, map snd (filter (fun p => Z.eqb (fst p) k) pairs)))
      (group_keys (map fst pairs)).

Definition enough_participants (min_p : Z) (g : Z * list string) : bool :=
  (min_p <=? Z.of_nat (List.length (snd g)))%Z.

(** The mask on the participant count, [head(max_projects)] and the read
    of column [name].  On an empty [collab_df] the mask is an empty object
    Series, the selection drops every column and the read raises. *)
Definition select_collaborations (min_p max_p : Z)
  (collab_df : list (Z * list string)) : result (list (Z * list string)) :=
  match collab_df with
  | [] => Raise KeyError
  | _ :: _ => Ok (head max_p (filter (enough_participants min_p) collab_df))
  end.

(** The rows of [collab_df] the edge loop runs over. *)
Definition retained_projects (cfg : config) (t : tables)
  : result (list (Z * list string)) :=
  st <- filter_engine cfg t ;;
  select_collaborations (min_participants cfg) (max_projects cfg)
    (groupby_names (project_name_pairs (snd st))).

Definition edge_list (collab_df : list (Z * list string))
  : list (string * string) :=
  flat_map (fun g => combinations (snd g)) collab_df.

Definition build_graph (edge_counts : list (string * string * nat)) : Graph :=
  fold_left (fun G e => add_edge (fst (fst e)) (snd (fst e)) (snd e) G)
    edge_counts empty_graph.

Definition figure_title (a : option string) : string :=
  if truthy_str a then "Institution Collaboration Network for " ++ arg_str a
  else "Institution Collaboration Network".

Definition plot_collaboration_network (cfg : config) (t : tables)
  : result Figure :=
  collab_df <- retained_projects cfg t ;;
  let edge_counts := Counter edge_eqb (edge_list collab_df) in
  let G := build_graph edge_counts in
  Ok {| graph := G; title := figure_title (field_filter cfg) |}.

End Plotter.

(** A reader of unsigned decimal integers, for the worked examples: on the
    texts used there it agrees with [float]. *)
Definition digit_of (c : ascii) : option Z :=
  let n := nat_of_ascii c in
  if andb (48 <=? n)%nat (n <=? 57)%nat then Some (Z.of_nat (n - 48)) else None.

Fixpoint digits_value (acc : Z) (s : string) : option Z :=
  match s with
  | EmptyString => Some acc
  | String c s' =>
      match digit_of c with
      | Some d => digits_value (10 * acc + d)%Z s'
      | None => None
      end
  end.

Definition float_of_digits (s : string) : option float64 :=
  match s with
  | EmptyString => None
  | _ => option_map (fun z => FNum (inject_Z z)) (digits_value 0 s)
  end.

(** The library of the worked examples.  It agrees with Python on the
    texts, the small whole numbers and the patterns used there: the
    pattern of one opening parenthesis does not compile, and the other
    patterns hold no regular-expression metacharacter, so that the search
    is the search of a contiguous piece. *)
Definition plain : library :=
  {| float_of_str := float_of_digits;
     round64 := fun q => q;
     re_compile := fun pat =>
       if String.eqb pat "(" then None else Some (str_in pat) |}.

Definition org (pid : Z) (nm : string) : org_row :=
  {| projectID := pid; name := nm; activityType := Some "HES";
     country := Some "BE"; discipline := Some "biology";
     startDate := Some "2021-01-01"; contribution := Num (inject_Z 1000) |}.

Definition proj (pid : Z) : project_row :=
  {| p_projectID := pid; sci_voc_titles := Some "['ecosystems']";
     fundingScheme := Some "HORIZON-RIA" |}.

Definition scenario : tables :=
  {| project_df := [proj 1; proj 2];
     organization_df :=
       [org 1 "Inst A"; org 1 "Inst B"; org 1 "Inst C";
        org 2 "Inst A"; org 2 "Inst B"] |}.

(** ** Single criteria

    One filter block, or one turn of a filter loop, as a value: what the
    spec calls a filter criterion. *)





(** ** The predicates of a call, one per argument, and their conjunction *)

Definition field_matches (cfg : config) (p : project_row) : bool :=
  if truthy_str (field_filter cfg)
  then str_in_cell (arg_str (field_filter cfg)) (sci_voc_titles p)
  else true.

Definition project_type_matches (cfg : config) (p : project_row) : bool :=
  forallb (fun call => str_in_cell call (fundingScheme p))
          (arg_list (project_type cfg)).

Definition project_matches (cfg : config) (p : project_row) : bool :=
  field_matches cfg p && project_type_matches cfg p.

(** The row belongs to a project of [df_proj] that passes [q]. *)
Definition in_project (q : project_row -> bool) (df_proj : list project_row)
  (r : org_row) : bool :=
  existsb (fun p => q p && Z.eqb (projectID r) (p_projectID p)) df_proj.

(** The row belongs to a project that passes the project predicates; no
    restriction when neither [field_filter] nor [project_type] is given. *)
Definition in_matching_project (cfg : config) (df_proj : list project_row)
  (r : org_row) : bool :=
  (negb (truthy_str (field_filter cfg)) &&
   negb (truthy_list (project_type cfg))) ||
  in_project (project_matches cfg) df_proj r.

Definition org_type_matches (types : list string) (r : org_row) : bool :=
  match types with
  | [] => true
  | _ :: _ => isin (astype_str (activityType r)) types
  end.

Definition country_matches (cfg : config) (r : org_row) : bool :=
  if truthy_list (countries cfg)
  then isin (astype_str (country r)) (arg_list (countries cfg))
  else true.

(** The compiled pattern finds a match in the text. *)
Definition re_matches (py : library) (pat text : string) : bool :=
  match re_compile py pat with
  | Some found => found text
  | None => false
  end.

(** The pattern does not compile. *)
Definition invalid_pattern (py : library) (pat : string) : bool :=
  match re_compile py pat with
  | Some _ => false
  | None => true
  end.

Definition disciplines_match (py : library) (cfg : config) (r : org_row)
  : bool :=
  forallb (fun d => re_matches py d (astype_str (discipline r)))
          (arg_list (disciplines cfg)).

Definition year_matches (py : library) (cfg : config) (r : org_row) : bool :=
  if truthy_str (year cfg)
  then re_matches py (arg_str (year cfg)) (astype_str (startDate r))
  else true.

Definition contribution_value (py : library) (r : org_row) : float64 :=
  match astype_float py (contribution r) with
  | Ok v => v
  | Raise _ => FNaN
  end.

(** The contribution cell of the row converts to a float. *)
Definition coercible (py : library) (r : org_row) : bool :=
  match astype_float py (contribution r) with
  | Ok _ => true
  | Raise _ => false
  end.

Definition contribution_matches (py : library) (cfg : config) (r : org_row)
  : bool :=
  if truthy_num (contribution_min cfg) then
    match contribution_min cfg with
    | Some th => ge_threshold (round64 py th) (contribution_value py r)
    | None => true
    end
  else true.

Definition org_matches (py : library) (cfg : config)
  (types : list string) (df_proj : list project_row) (r : org_row) : bool :=
  in_matching_project cfg df_proj r && org_type_matches types r &&
  country_matches cfg r && disciplines_match py cfg r && year_matches py cfg r &&
  contribution_matches py cfg r.

(** The rows that pass the predicates of the blocks before the
    contribution block. *)
Definition early_matches (py : library) (cfg : config) (types : list string)
  (df_proj : list project_row) (r : org_row) : bool :=
  (negb (truthy_str (field_filter cfg))
   || in_project (field_matches cfg) df_proj r)
  && org_type_matches types r && country_matches cfg r
  && disciplines_match py cfg r && year_matches py cfg r.

(** ** What makes a block raise *)

(** The field block runs on an empty project frame. *)
Definition field_raises (cfg : config) (df_proj : list project_row) : bool :=
  truthy_str (field_filter cfg) && is_nil df_proj.

(** A discipline value or the year does not compile. *)
Definition text_raises (py : library) (cfg : config) : bool :=
  existsb (invalid_pattern py) (arg_list (disciplines cfg)) ||
  (truthy_str (year cfg) && invalid_pattern py (arg_str (year cfg))).

(** The contribution block runs and meets a cell that does not convert. *)
Definition contribution_raises (py : library)
  (cfg : config) (df : list org_row) : bool :=
  truthy_num (contribution_min cfg) &&
  negb (forallb (coercible py) df).

(** A turn of the project-type loop runs on an empty project frame. *)
Fixpoint loop_raises (calls : list string) (df_proj : list project_row)
  : bool :=
  match calls with
  | [] => false
  | call :: calls' =>
      is_nil df_proj ||
      loop_raises calls'
        (filter (fun p => str_in_cell call (fundingScheme p)) df_proj)
  end.

Definition project_type_raises (cfg : config) (df_proj : list project_row)
  : bool :=
  loop_raises (arg_list (project_type cfg))
              (filter (field_matches cfg) df_proj).

(** The first block that raises, in the order of the method. *)
Definition engine_error (py : library) (cfg : config) (types : list string)
  (t : tables) : option error :=
  if field_raises cfg (project_df t) then Some KeyError
  else if text_raises py cfg then Some ReError
  else if contribution_raises py cfg
            (filter (early_matches py cfg types (project_df t))
                    (organization_df t))
  then Some ValueError
  else if project_type_raises cfg (project_df t) then Some KeyError
  else None.

(** The number of the given projects that list both names. *)
Definition cooccurrences (collab_df : list (Z * list string)) (u v : string)
  : nat :=
  List.length
    (filter (fun g => existsb (String.eqb u) (snd g) &&
                      existsb (String.eqb v) (snd g)) collab_df).






(** ** Setting one argument of a call *)

Definition with_org_types (cfg : config) (a : org_types_arg) : config :=
  {| field_filter := field_filter cfg; org_types := a;
     max_projects := max_projects cfg;
     min_participants := min_participants cfg; countries := countries cfg;
     disciplines := disciplines cfg; year := year cfg;
     contribution_min := contribution_min cfg;
     project_type := project_type cfg |}.

Definition with_countries (cfg : config) (a : option (list string)) : config :=
  {| field_filter := field_filter cfg; org_types := org_types cfg;
     max_projects := max_projects cfg;
     min_participants := min_participants cfg; countries := a;
     disciplines := disciplines cfg; year := year cfg;
     contribution_min := contribution_min cfg;
     project_type := project_type cfg |}.

Definition with_disciplines (cfg : config) (a : option (list string))
  : config :=
  {| field_filter := field_filter cfg; org_types := org_types cfg;
     max_projects := max_projects cfg;
     min_participants := min_participants cfg; countries := countries cfg;
     disciplines := a; year := year cfg;
     contribution_min := contribution_min cfg;
     project_type := project_type cfg |}.

Definition with_year (cfg : config) (a : option string) : config :=
  {| field_filter := field_filter cfg; org_types := org_types cfg;
     max_projects := max_projects cfg;
     min_participants := min_participants cfg; countries := countries cfg;
     disciplines := disciplines cfg; year := a;
     contribution_min := contribution_min cfg;
     project_type := project_type cfg |}.

Definition with_contribution (cfg : config) (a : option Q) : config :=
  {| field_filter := field_filter cfg; org_types := org_types cfg;
     max_projects := max_projects cfg;
     min_participants := min_participants cfg; countries := countries cfg;
     disciplines := disciplines cfg; year := year cfg;
     contribution_min := a;
     project_type := project_type cfg |}.

Definition with_project_type (cfg : config) (a : option (list string))
  : config :=
  {| field_filter := field_filter cfg; org_types := org_types cfg;
     max_projects := max_projects cfg;
     min_participants := min_participants cfg; countries := countries cfg;
     disciplines := disciplines cfg; year := year cfg;
     contribution_min := contribution_min cfg;
     project_type := a |}.

Definition with_field_filter (cfg : config) (a : option string) : config :=
  {| field_filter := a; org_types := org_types cfg;
     max_projects := max_projects cfg;
     min_participants := min_participants cfg; countries := countries cfg;
     disciplines := disciplines cfg; year := year cfg;
     contribution_min := contribution_min cfg;
     project_type := project_type cfg |}.

Definition with_limits (cfg : config) (max_p min_p : Z) : config :=
  {| field_filter := field_filter cfg; org_types := org_types cfg;
     max_projects := max_p;
     min_participants := min_p; countries := countries cfg;
     disciplines := disciplines cfg; year := year cfg;
     contribution_min := contribution_min cfg;
     project_type := project_type cfg |}.

(** ** Worked inputs *)

(** The two projects of the spec's scenario, listing their shared
    institutions in opposite orders. *)
Definition reversed_listing : tables :=
  {| project_df := [proj 1; proj 2];
     organization_df :=
       [org 1 "Inst A"; org 1 "Inst B"; org 2 "Inst B"; org 2 "Inst A"] |}.

(** One institution on two rows of the same project. *)
Definition duplicate_rows : tables :=
  {| project_df := [proj 1];
     organization_df := [org 1 "Inst A"; org 1 "Inst A"; org 1 "Inst B"] |}.

Definition org_with (pid : Z) (nm : string) (ty ctry disc date : option string)
  (c : cell) : org_row :=
  {| projectID := pid; name := nm; activityType := ty; country := ctry;
     discipline := disc; startDate := date; contribution := c |}.

(** Contributions kept as text; the French partner's uses a decimal
    comma, which [float] rejects. *)
Definition text_contribution : tables :=
  {| project_df := [proj 1];
     organization_df :=
       [org_with 1 "Inst A" (Some "HES") (Some "BE") (Some "biology")
          (Some "2021-01-01") (Str "1000");
        org_with 1 "Inst B" (Some "HES") (Some "BE") (Some "biology")
          (Some "2021-01-01") (Str "2000");
        org_with 1 "Inst C" (Some "HES") (Some "FR") (Some "biology")
          (Some "2021-01-01") (Str "12,5")] |}.

(** Partners of a default activity type: one with a missing
    contribution and one with a contribution of 100. *)
Definition mixed_contributions : tables :=
  {| project_df := [proj 1];
     organization_df :=
       [org 1 "Inst A";
        org_with 1 "Inst B" (Some "HES") (Some "BE") (Some "biology")
          (Some "2021-01-01") NaN;
        org_with 1 "Inst C" (Some "HES") (Some "BE") (Some "biology")
          (Some "2021-01-01") (Num (inject_Z 100))] |}.

(** A partner with no discipline and no start date. *)
Definition missing_fields : tables :=
  {| project_df := [proj 1];
     organization_df :=
       [org 1 "Inst A";
        org_with 1 "Inst B" (Some "HES") (Some "BE") None None
          (Num (inject_Z 1000))] |}.

(** A partner of another activity type, with a missing contribution, and
    one with a negative contribution. *)
Definition other_partners : tables :=
  {| project_df := [proj 1];
     organization_df :=
       [org 1 "Inst A";
        org_with 1 "Inst B" (Some "OTH") (Some "BE") (Some "biology")
          (Some "2021-01-01") NaN;
        org_with 1 "Inst C" (Some "HES") (Some "BE") (Some "biology")
          (Some "2021-01-01") (Num (inject_Z (-5)))] |}.


(** ** Drawing the graph

    The loops that turn the graph and the layout into the two scatter
    traces.  [G.nodes()] runs over the nodes in insertion order;
    [G.edges()] runs over the nodes and, for each, over its neighbours in
    the order their edges were first added, skipping the neighbours whose
    own turn has passed. *)

(** The keys of [G.adj[n]]. *)
Definition neighbours (G : Graph) (n : string) : list string :=
  flat_map (fun e : string * string * nat =>
              let '(a, b, _) := e in
              if String.eqb a n then [b]
              else if String.eqb b n then [a]
              else [])
           (edges G).

Fixpoint edges_from (G : Graph) (ns seen : list string)
  : list (string * string) :=
  match ns with
  | [] => []
  | n :: ns' =>
      map (pair n)
          (filter (fun nbr => negb (existsb (String.eqb nbr) seen))
                  (neighbours G n))
      ++ edges_from G ns' (n :: seen)
  end.

(** [G.edges()]. *)
Definition edges_view (G : Graph) : list (string * string) :=
  edges_from G (nodes G) [].

Record Drawing (coord : Type) : Type := {
  edge_x : list (option coord);
  edge_y : list (option coord);
  node_x : list coord;
  node_y : list coord;
  node_text : list string;
  drawing_title : string
}.

Arguments edge_x {coord} d.
Arguments edge_y {coord} d.
Arguments node_x {coord} d.
Arguments node_y {coord} d.
Arguments node_text {coord} d.
Arguments drawing_title {coord} d.

Section Drawing.
Context {coord : Type}.

(** The layout returned by [spring_layout]: [pos n] is [pos[n]], [None]
    for a key the dict does not hold. *)
Variable pos : string -> option (coord * coord).

Definition position (n : string) : result (coord * coord) :=
  match pos n with
  | Some p => Ok p
  | None => Raise KeyError
  end.

(** The loop over [G.edges()]: three entries per edge, the last one
    [None]. *)
Fixpoint edge_segments (es : list (string * string))
  : result (list (option coord) * list (option coord)) :=
  match es with
  | [] => Ok ([], [])
  | (u, v) :: es' =>
      p0 <- position u ;;
      p1 <- position v ;;
      rest <- edge_segments es' ;;
      Ok ([Some (fst p0); Some (fst p1); None] ++ fst rest,
          [Some (snd p0); Some (snd p1); None] ++ snd rest)
  end.

(** The loop over [G.nodes()]. *)
Fixpoint node_markers (ns : list string)
  : result (list coord * list coord * list string) :=
  match ns with
  | [] => Ok ([], [], [])
  | n :: ns' =>
      p <- position n ;;
      rest <- node_markers ns' ;;
      Ok (fst p :: fst (fst rest), snd p :: snd (fst rest), n :: snd rest)
  end.

Definition draw (fig : Figure) : result (Drawing coord) :=
  segments <- edge_segments (edges_view (graph fig)) ;;
  markers <- node_markers (nodes (graph fig)) ;;
  Ok {| edge_x := fst segments; edge_y := snd segments;
        node_x := fst (fst markers); node_y := snd (fst markers);
        node_text := snd markers; drawing_title := title fig |}.
End Drawing.

(** For one edge, the number of turns of [G.edges()] that yield it. *)
Definition yields (e : string * string * nat) (n : string)
  (seen : list string) : nat :=
  let '(a, b, _) := e in
  if String.eqb a n then
    (if existsb (String.eqb b) seen then 0%nat else 1%nat)
  else if String.eqb b n then
    (if existsb (String.eqb a) seen then 0%nat else 1%nat)
  else 0%nat.

Fixpoint yields_from (e : string * string * nat) (ns seen : list string)
  : nat :=
  match ns with
  | [] => 0%nat
  | n :: ns' => (yields e n seen + yields_from e ns' (n :: seen))%nat
  end.

(** A layout of the three institutions of the scenario. *)
Definition triangle_layout (n : string) : option (Z * Z) :=
  if String.eqb n "Inst A" then Some (0, 0)%Z
  else if String.eqb n "Inst B" then Some (1, 0)%Z
  else if String.eqb n "Inst C" then Some (0, 1)%Z
  else None.

(** * Facts about the list primitives *)

Section ListFacts.
Context {A : Type}.

Lemma filter_and (f g : A -> bool) (l : list A) :
  filter f (filter g l) = filter (fun x => g x && f x) l.
Proof.
  induction l as [|x l IH]; simpl; [reflexivity|].
  destruct (g x); simpl; [destruct (f x)|]; now rewrite IH.
Qed.


Lemma filter_absorb (f g : A -> bool) (l : list A) :
  (forall x, In x l -> f x = true -> g x = true) ->
  filter f (filter g l) = filter f l.
Proof.
  intro H. rewrite filter_and. apply filter_ext_in. intros x Hx.
  destruct (f x) eqn:E.
  - now rewrite (H x Hx E).
  - apply andb_false_r.
Qed.

Lemma filter_all_true (f : A -> bool) (l : list A) :
  (forall x, In x l -> f x = true) -> filter f l = l.
Proof.
  induction l as [|x l IH]; simpl; intro H; [reflexivity|].
  rewrite (H x (or_introl eq_refl)). f_equal. apply IH. intros; apply H; now right.
Qed.

Lemma filter_nil_iff (f : A -> bool) (l : list A) :
  filter f l = [] <-> forall x, In x l -> f x = false.
Proof.
  induction l as [|x l IH]; simpl.
  - split; [intros _ y []|reflexivity].
  - destruct (f x) eqn:E; split.
    + discriminate.
    + intro H. specialize (H x (or_introl eq_refl)). congruence.
    + intros H y [<-|Hy]; [assumption|]. now apply IH.
    + intro H. apply IH. intros; apply H; now right.
Qed.

Lemma firstn_incl (n : nat) (l : list A) (x : A) :
  In x (firstn n l) -> In x l.
Proof.
  intro H. rewrite <- (firstn_skipn n l). apply in_or_app. now left.
Qed.

Lemma head_incl (n : Z) (l : list A) (x : A) : In x (head n l) -> In x l.
Proof.
  unfold head. destruct (0 <=? n)%Z; apply firstn_incl.
Qed.

Lemma head_nonneg (n : Z) (l : list A) :
  (0 <= n)%Z -> head n l = firstn (Z.to_nat n) l.
Proof.
  intro H. unfold head. now rewrite (proj2 (Z.leb_le 0 n) H).
Qed.

Lemma head_zero (l : list A) : head 0 l = [].
Proof. reflexivity. Qed.
End ListFacts.

Section DropDuplicatesFacts.
Context {A : Type} (eqb : A -> A -> bool).
Hypothesis eqb_spec : forall x y, eqb x y = true <-> x = y.

Lemma existsb_eqb_In (x : A) (l : list A) :
  existsb (eqb x) l = true <-> In x l.
Proof.
  rewrite existsb_exists. split.
  - intros [y [Hy E]]. apply eqb_spec in E. now subst.
  - intro H. exists x. split; [assumption|]. now apply eqb_spec.
Qed.

Lemma drop_duplicates_from_In (seen l : list A) (x : A) :
  In x (drop_duplicates_from eqb seen l) <-> In x l /\ ~ In x seen.
Proof.
  revert seen. induction l as [|y l IH]; intro seen; simpl.
  - tauto.
  - destruct (existsb (eqb y) seen) eqn:E.
    + apply existsb_eqb_In in E. rewrite IH. split.
      * tauto.
      * intros [[<-|H] Hn]; [contradiction|tauto].
    + assert (Hy : ~ In y seen).
      { intro H. apply existsb_eqb_In in H. congruence. }
      simpl. rewrite IH. simpl. split.
      * intros [<-|[H Hn]]; [tauto|]. split; [tauto|]. intro; apply Hn; now right.
      * intros [[<-|H] Hn]; [now left|].
        destruct (existsb (eqb x) [y]) eqn:Exy.
        -- apply existsb_eqb_In in Exy. destruct Exy as [->|[]]. now left.
        -- right. split; [assumption|]. intros [->|H']; [|contradiction].
           simpl in Exy. rewrite (proj2 (eqb_spec x x) eq_refl) in Exy. discriminate.
Qed.

Lemma drop_duplicates_from_NoDup (seen l : list A) :
  NoDup (drop_duplicates_from eqb seen l).
Proof.
  revert seen. induction l as [|y l IH]; intro seen; simpl.
  - constructor.
  - destruct (existsb (eqb y) seen); [apply IH|].
    constructor; [|apply IH].
    rewrite drop_duplicates_from_In. intros [_ H]. apply H. now left.
Qed.

Lemma drop_duplicates_In (l : list A) (x : A) :
  In x (drop_duplicates eqb l) <-> In x l.
Proof.
  unfold drop_duplicates. rewrite drop_duplicates_from_In. simpl. tauto.
Qed.

Lemma drop_duplicates_NoDup (l : list A) : NoDup (drop_duplicates eqb l).
Proof. apply drop_duplicates_from_NoDup. Qed.

Lemma drop_duplicates_nil (l : list A) : drop_duplicates eqb l = [] -> l = [].
Proof.
  destruct l as [|x l]; [reflexivity|]. intro H.
  assert (Hx : In x (drop_duplicates eqb (x :: l))).
  { apply drop_duplicates_In. now left. }
  rewrite H in Hx. destruct Hx.
Qed.
End DropDuplicatesFacts.

Lemma pair_eqb_spec (a b : Z * string) : pair_eqb a b = true <-> a = b.
Proof.
  destruct a as [i s], b as [j t]. unfold pair_eqb. simpl.
  rewrite andb_true_iff, Z.eqb_eq, String.eqb_eq. split.
  - intros [-> ->]. reflexivity.
  - intro H. now inversion H.
Qed.

Lemma edge_eqb_spec (a b : string * string) : edge_eqb a b = true <-> a = b.
Proof.
  destruct a as [i s], b as [j t]. unfold edge_eqb. simpl.
  rewrite andb_true_iff, !String.eqb_eq. split.
  - intros [-> ->]. reflexivity.
  - intro H. now inversion H.
Qed.

Lemma isin_id_unique (k : Z) (ids : list Z) :
  isin_id k (drop_duplicates Z.eqb ids) = existsb (Z.eqb k) ids.
Proof.
  unfold isin_id. apply eq_true_iff_eq.
  rewrite !(existsb_eqb_In Z.eqb Z.eqb_eq).
  apply (drop_duplicates_In Z.eqb Z.eqb_eq).
Qed.

(** * Facts about grouping *)

Lemma insert_key_In (k x : Z) (l : list Z) :
  In x (insert_key k l) <-> x = k \/ In x l.
Proof.
  induction l as [|y l IH]; simpl.
  - intuition.
  - destruct (k <? y)%Z; [simpl; intuition|].
    destruct (k =? y)%Z eqn:E.
    + apply Z.eqb_eq in E. subst. simpl. intuition.
    + simpl. rewrite IH. intuition.
Qed.

Lemma group_keys_In (x : Z) (ids : list Z) :
  In x (group_keys ids) <-> In x ids.
Proof.
  unfold group_keys. induction ids as [|y l IH]; simpl; [tauto|].
  rewrite insert_key_In, IH. intuition.
Qed.

Lemma group_keys_nil (ids : list Z) : group_keys ids = [] -> ids = [].
Proof.
  destruct ids as [|y l]; [reflexivity|]. intro H.
  assert (Hy : In y (group_keys (y :: l))) by (apply group_keys_In; now left).
  rewrite H in Hy. destruct Hy.
Qed.

Lemma groupby_names_In (pairs : list (Z * string)) (k : Z) (names : list string) :
  In (k, names) (groupby_names pairs) ->
  names = map snd (filter (fun p => Z.eqb (fst p) k) pairs).
Proof.
  unfold groupby_names. rewrite in_map_iff. intros [k' [E _]].
  inversion E. reflexivity.
Qed.

Lemma groupby_names_nil (pairs : list (Z * string)) :
  groupby_names pairs = [] -> pairs = [].
Proof.
  unfold groupby_names. intro H. apply map_eq_nil in H.
  apply group_keys_nil in H. now apply map_eq_nil in H.
Qed.

Lemma NoDup_names_of_project (pairs : list (Z * string)) (k : Z) :
  NoDup pairs -> NoDup (map snd (filter (fun p => Z.eqb (fst p) k) pairs)).
Proof.
  induction pairs as [|[i s] l IH]; simpl; intro H; [constructor|].
  inversion H as [|? ? Hn Hl]; subst.
  destruct (i =? k)%Z eqn:E; [|now apply IH].
  simpl. constructor; [|now apply IH].
  rewrite in_map_iff. intros [[j s'] [Es Hin]]. simpl in Es. subst s'.
  apply filter_In in Hin. destruct Hin as [Hin Ej]. simpl in Ej.
  apply Z.eqb_eq in E, Ej. subst. contradiction.
Qed.

Lemma project_name_pairs_nil (df_org : list org_row) :
  project_name_pairs df_org = [] -> df_org = [].
Proof.
  unfold project_name_pairs. intro H.
  apply (drop_duplicates_nil pair_eqb pair_eqb_spec) in H.
  now apply map_eq_nil in H.
Qed.

Lemma grouped_names_NoDup (df_org : list org_row) (k : Z) (names : list string) :
  In (k, names) (groupby_names (project_name_pairs df_org)) -> NoDup names.
Proof.
  intro H. apply groupby_names_In in H. subst names.
  apply NoDup_names_of_project.
  apply (drop_duplicates_NoDup pair_eqb pair_eqb_spec).
Qed.

Lemma select_collaborations_incl (min_p max_p : Z)
  (collab_df kept : list (Z * list string)) (g : Z * list string) :
  select_collaborations min_p max_p collab_df = Ok kept ->
  In g kept -> In g collab_df /\ enough_participants min_p g = true.
Proof.
  unfold select_collaborations. intros E Hg.
  assert (E' : kept = head max_p (filter (enough_participants min_p) collab_df)).
  { destruct collab_df; [discriminate|]. now injection E as <-. }
  subst kept. apply head_incl in Hg.
  now apply filter_In in Hg.
Qed.

(** * Facts about [combinations] *)

Section CombinationsFacts.
Context {A : Type}.

Lemma combinations_length_twice (l : list A) :
  (2 * List.length (combinations l) = List.length l * (List.length l - 1))%nat.
Proof.
  induction l as [|x l IH]; simpl; [reflexivity|].
  rewrite length_app, length_map. rewrite Nat.sub_0_r.
  destruct l as [|y l]; simpl in *; [reflexivity|]. nia.
Qed.

Lemma combinations_length (l : list A) :
  List.length (combinations l)
  = (List.length l * (List.length l - 1) / 2)%nat.
Proof.
  rewrite <- combinations_length_twice.
  rewrite Nat.mul_comm, Nat.div_mul; [reflexivity|discriminate].
Qed.

Lemma combinations_In (l : list A) (u v : A) :
  In (u, v) (combinations l) -> In u l /\ In v l.
Proof.
  induction l as [|x l IH]; simpl; [tauto|].
  rewrite in_app_iff, in_map_iff. intros [[y [E Hy]]|H].
  - inversion E; subst. tauto.
  - apply IH in H. tauto.
Qed.

Lemma combinations_distinct (l : list A) (u v : A) :
  NoDup l -> In (u, v) (combinations l) -> u <> v.
Proof.
  induction l as [|x l IH]; simpl; [tauto|].
  intros Hnd. inversion Hnd as [|? ? Hx Hl]; subst.
  rewrite in_app_iff, in_map_iff. intros [[y [E Hy]]|H].
  - inversion E; subst. intro; subst. contradiction.
  - now apply IH.
Qed.

Lemma combinations_NoDup (l : list A) : NoDup l -> NoDup (combinations l).
Proof.
  induction l as [|x l IH]; simpl; intro Hnd; [constructor|].
  inversion Hnd as [|? ? Hx Hl]; subst.
  apply NoDup_app.
  - apply Injective_map_NoDup; [|assumption].
    intros a b E. now inversion E.
  - now apply IH.
  - intros [a b]. rewrite in_map_iff. intros [y [E _]] H.
    inversion E; subst. apply combinations_In in H. tauto.
Qed.

Lemma combinations_one_direction (l : list A) (u v : A) :
  NoDup l -> In (u, v) (combinations l) -> ~ In (v, u) (combinations l).
Proof.
  induction l as [|x l IH]; simpl; [tauto|].
  intros Hnd. inversion Hnd as [|? ? Hx Hl]; subst.
  rewrite !in_app_iff, !in_map_iff.
  intros [[y [E Hy]]|H] [[z [E' Hz]]|H'].
  - inversion E; inversion E'; subst. contradiction.
  - inversion E; subst. apply combinations_In in H'. tauto.
  - inversion E'; subst. apply combinations_In in H. tauto.
  - now apply (IH Hl H).
Qed.
End CombinationsFacts.

(** * Facts about the [Counter] *)

Section CounterFacts.
Context {K : Type} (eqb : K -> K -> bool).
Hypothesis eqb_spec : forall x y, eqb x y = true <-> x = y.

Lemma eqb_refl (k : K) : eqb k k = true.
Proof. now apply eqb_spec. Qed.

Lemma eqb_trans_l (k k' x : K) : eqb k k' = true -> eqb x k' = eqb x k.
Proof. intro E. apply eqb_spec in E. now subst. Qed.

Lemma counter_get_add_same (k : K) (c : list (K * nat)) :
  counter_get eqb (counter_add eqb k c) k = Some (S (count_of eqb c k)).
Proof.
  unfold count_of. induction c as [|[k' n] c IH]; simpl.
  - now rewrite eqb_refl.
  - destruct (eqb k k') eqn:E; simpl; rewrite E; [reflexivity|exact IH].
Qed.

Lemma counter_get_add_other (k x : K) (c : list (K * nat)) :
  eqb x k = false ->
  counter_get eqb (counter_add eqb k c) x = counter_get eqb c x.
Proof.
  intro Hx. induction c as [|[k' n] c IH]; simpl.
  - now rewrite Hx.
  - destruct (eqb k k') eqn:E; simpl.
    + apply eqb_spec in E. subst k'. now rewrite Hx.
    + now rewrite IH.
Qed.

Lemma counter_add_keys (k : K) (c : list (K * nat)) (x : K) (n : nat) :
  In (x, n) (counter_add eqb k c) -> x = k \/ In x (map fst c).
Proof.
  induction c as [|[k' m] c IH]; simpl.
  - intros [E|[]]. inversion E. now left.
  - destruct (eqb k k') eqn:E; simpl.
    + intros [E'|H]; [inversion E'; subst; now (right; left)|].
      right; right. apply in_map_iff. now exists (x, n).
    + intros [E'|H]; [inversion E'; subst; now (right; left)|].
      apply IH in H. tauto.
Qed.

Lemma counter_add_positive (k : K) (c : list (K * nat)) :
  counts_positive c -> counts_positive (counter_add eqb k c).
Proof.
  unfold counts_positive. induction c as [|[k' m] c IH]; simpl; intros Hc x n.
  - intros [E|[]]. inversion E. lia.
  - destruct (eqb k k'); simpl.
    + intros [E|H]; [inversion E; lia|]. apply (Hc x n). now right.
    + intros [E|H]; [apply (Hc x n); now left|].
      apply (IH (fun y j Hy => Hc y j (or_intror Hy)) x n H).
Qed.

Lemma counter_fold_keys (l : list K) (c : list (K * nat)) (x : K) (n : nat) :
  In (x, n) (fold_left (fun c k => counter_add eqb k c) l c) ->
  In x l \/ In x (map fst c).
Proof.
  revert c. induction l as [|k l IH]; simpl; intros c H.
  - right. apply in_map_iff. now exists (x, n).
  - apply IH in H. destruct H as [H|H]; [tauto|].
    apply in_map_iff in H. destruct H as [[y m] [E H]]. simpl in E. subst y.
    apply counter_add_keys in H.
    destruct H as [->|H]; [left; now left|now right].
Qed.

Lemma counter_fold_positive (l : list K) (c : list (K * nat)) :
  counts_positive c ->
  counts_positive (fold_left (fun c k => counter_add eqb k c) l c).
Proof.
  revert c. induction l as [|k l IH]; simpl; intros c H; [assumption|].
  apply IH. now apply counter_add_positive.
Qed.

Lemma counter_fold_count (l : list K) (c : list (K * nat)) (x : K) :
  count_of eqb (fold_left (fun c k => counter_add eqb k c) l c) x
  = (occurrences eqb x l + count_of eqb c x)%nat.
Proof.
  revert c. unfold occurrences.
  induction l as [|k l IH]; simpl; intro c; [reflexivity|].
  rewrite IH. destruct (eqb x k) eqn:E.
  - apply eqb_spec in E. subst k. simpl.
    unfold count_of at 1. rewrite counter_get_add_same. lia.
  - unfold count_of. now rewrite counter_get_add_other.
Qed.

(** Every key of the [Counter] is an element of the list. *)
Lemma Counter_keys (l : list K) (x : K) (n : nat) :
  In (x, n) (Counter eqb l) -> In x l.
Proof.
  intro H. apply counter_fold_keys in H. destruct H as [H|[]]. exact H.
Qed.

Lemma Counter_positive (l : list K) : counts_positive (Counter eqb l).
Proof. apply counter_fold_positive. intros k n []. Qed.

(** The [Counter] holds, for each key, the number of its occurrences. *)
Lemma Counter_count (l : list K) (x : K) :
  count_of eqb (Counter eqb l) x = occurrences eqb x l.
Proof.
  unfold Counter. rewrite counter_fold_count. unfold count_of. simpl. lia.
Qed.

Lemma counter_get_In (c : list (K * nat)) (x : K) (n : nat) :
  counter_get eqb c x = Some n -> In (x, n) c.
Proof.
  induction c as [|[k m] c IH]; simpl; [discriminate|].
  destruct (eqb x k) eqn:E.
  - intro H. inversion H. apply eqb_spec in E. subst. now left.
  - intro H. right. now apply IH.
Qed.
End CounterFacts.

(** * Facts about the graph *)

Lemma same_edge_loop (u a b : string) :
  same_edge u u a b = true -> a = b.
Proof.
  unfold same_edge. rewrite orb_true_iff, !andb_true_iff, !String.eqb_eq.
  intros [[<- <-]|[<- <-]]; reflexivity.
Qed.

Section GraphFacts.
Variable Pe : string -> string -> Prop.
Variable Pw : nat -> Prop.

Lemma set_weight_satisfy (u v : string) (w0 : nat)
  (es : list (string * string * nat)) :
  edges_satisfy Pe Pw es -> Pe u v -> Pw w0 ->
  edges_satisfy Pe Pw (set_weight u v w0 es).
Proof.
  unfold edges_satisfy. intros Hes Hu Hw.
  induction es as [|[[a b] w] es IH]; simpl; intros x y z.
  - intros [E|[]]. inversion E; subst. tauto.
  - destruct (same_edge u v a b).
    + intros [E|H].
      * inversion E; subst. split; [|assumption].
        apply (Hes x y w). now left.
      * apply (Hes x y z). now right.
    + intros [E|H].
      * apply (Hes x y z). now left.
      * apply IH; [|assumption]. intros; apply (Hes a0 b0 w1). now right.
Qed.

Lemma fold_add_edge_satisfy (counts : list (string * string * nat)) (G : Graph) :
  edges_satisfy Pe Pw (edges G) ->
  (forall u v n, In (u, v, n) counts -> Pe u v /\ Pw n) ->
  edges_satisfy Pe Pw
    (edges (fold_left
              (fun G e => add_edge (fst (fst e)) (snd (fst e)) (snd e) G)
              counts G)).
Proof.
  revert G. induction counts as [|[[u v] n] counts IH]; simpl; intros G HG Hc.
  - exact HG.
  - apply IH.
    + simpl. destruct (Hc u v n (or_introl eq_refl)).
      now apply set_weight_satisfy.
    + intros; apply Hc. now right.
Qed.

Lemma build_graph_satisfy (counts : list (string * string * nat)) :
  (forall u v n, In (u, v, n) counts -> Pe u v /\ Pw n) ->
  edges_satisfy Pe Pw (edges (build_graph counts)).
Proof.
  intro H. apply fold_add_edge_satisfy; [|exact H]. intros a b w [].
Qed.
End GraphFacts.

Lemma edge_weight_in_Some (es : list (string * string * nat)) (u v : string)
  (w : nat) :
  edge_weight_in es u v = Some w ->
  exists a b, In (a, b, w) es /\ same_edge u v a b = true.
Proof.
  induction es as [|[[a b] w'] es IH]; simpl; [discriminate|].
  destruct (same_edge u v a b) eqn:E.
  - intro H. inversion H; subst. exists a, b. tauto.
  - intro H. destruct (IH H) as [x [y [Hin Hs]]]. exists x, y. tauto.
Qed.

(** * The filter blocks as predicates on rows *)

Lemma boolean_index_map {A B : Type} (f : B -> bool) (g : A -> B) (l : list A) :
  boolean_index l (map f (map g l)) = filter (fun x => f (g x)) l.
Proof.
  unfold boolean_index. induction l as [|x l IH]; simpl; [reflexivity|].
  destruct (f (g x)); simpl; now rewrite IH.
Qed.

Lemma existsb_map {A B : Type} (f : B -> bool) (g : A -> B) (l : list A) :
  existsb f (map g l) = existsb (fun x => f (g x)) l.
Proof.
  induction l as [|x l IH]; simpl; [reflexivity|]. now rewrite IH.
Qed.

Lemma existsb_ext {A : Type} (f g : A -> bool) (l : list A) :
  (forall x, f x = g x) -> existsb f l = existsb g l.
Proof.
  intro H. induction l as [|x l IH]; simpl; [reflexivity|]. now rewrite H, IH.
Qed.

Lemma existsb_filter {A : Type} (f g : A -> bool) (l : list A) :
  existsb g (filter f l) = existsb (fun x => f x && g x) l.
Proof.
  induction l as [|x l IH]; simpl; [reflexivity|].
  destruct (f x); simpl; now rewrite IH.
Qed.

Lemma restrict_to_projects_filter (q : project_row -> bool)
  (P : list project_row) (O : list org_row) :
  restrict_to_projects (filter q P) O = filter (in_project q P) O.
Proof.
  unfold restrict_to_projects, in_project. apply filter_ext. intro r.
  rewrite isin_id_unique, existsb_map. apply existsb_filter.
Qed.

Lemma in_project_filter (q q' : project_row -> bool) (P : list project_row)
  (r : org_row) :
  in_project q' (filter q P) r = in_project (fun p => q p && q' p) P r.
Proof.
  unfold in_project. rewrite existsb_filter. apply existsb_ext.
  intro p. now rewrite andb_assoc.
Qed.

Lemma in_project_weaken (q q' : project_row -> bool) (P : list project_row)
  (r : org_row) :
  in_project (fun p => q p && q' p) P r = true -> in_project q P r = true.
Proof.
  unfold in_project. rewrite !existsb_exists. intros [p [Hp H]].
  exists p. split; [assumption|].
  apply andb_true_iff in H. destruct H as [H1 H2].
  apply andb_true_iff in H1. destruct H1 as [H1 _]. now rewrite H1, H2.
Qed.

Section EngineFacts.
Variable py : library.

Lemma column_astype_float_spec (rows : list org_row) :
  column_astype_float py (map contribution rows)
  = if forallb (coercible py) rows
    then Ok (map (contribution_value py) rows)
    else Raise ValueError.
Proof.
  induction rows as [|r rows IH]; simpl; [reflexivity|].
  unfold coercible at 1, contribution_value at 1.
  destruct (astype_float py (contribution r)) as [v|e] eqn:E; simpl.
  - rewrite IH. now destruct (forallb (coercible py) rows).
  - destruct (contribution r) as [|q|s]; simpl in E; try discriminate.
    destruct (float_of_str py s); [discriminate|]. now inversion E.
Qed.

Lemma contribution_filter_spec (th : Q) (rows : list org_row) :
  contribution_filter py th rows
  = if forallb (coercible py) rows
    then Ok (filter (fun r => ge_threshold (round64 py th)
                                (contribution_value py r)) rows)
    else Raise ValueError.
Proof.
  unfold contribution_filter. rewrite column_astype_float_spec.
  destruct (forallb (coercible py) rows); simpl; [|reflexivity].
  now rewrite boolean_index_map.
Qed.

Lemma step_org_types_spec (types : list string) (df : list org_row) :
  step_org_types types df = filter (org_type_matches types) df.
Proof.
  unfold step_org_types, org_type_matches. destruct types; simpl.
  - symmetry. now apply filter_all_true.
  - reflexivity.
Qed.

Lemma step_countries_spec (cfg : config) (df : list org_row) :
  step_countries (countries cfg) df = filter (country_matches cfg) df.
Proof.
  unfold step_countries, country_matches.
  destruct (truthy_list (countries cfg)); [reflexivity|].
  symmetry. now apply filter_all_true.
Qed.

Lemma discipline_loop_spec (ds : list string) (df : list org_row) :
  discipline_loop py ds df
  = if existsb (invalid_pattern py) ds then Raise ReError
    else Ok (filter (fun r => forallb (fun d => re_matches py d
                                                  (astype_str (discipline r)))
                                      ds) df).
Proof.
  revert df. induction ds as [|d ds IH]; intro df; cbn [discipline_loop existsb].
  - f_equal. symmetry. now apply filter_all_true.
  - unfold discipline_filter, invalid_pattern at 1.
    destruct (re_compile py d) as [found|] eqn:E; cbn [bind orb];
      [|reflexivity].
    rewrite IH. destruct (existsb (invalid_pattern py) ds); [reflexivity|].
    f_equal. rewrite filter_and. apply filter_ext. intro r.
    cbn [forallb]. unfold re_matches at 2. now rewrite E.
Qed.

Lemma step_disciplines_spec (cfg : config) (df : list org_row) :
  step_disciplines py (disciplines cfg) df
  = if existsb (invalid_pattern py) (arg_list (disciplines cfg))
    then Raise ReError
    else Ok (filter (disciplines_match py cfg) df).
Proof.
  unfold step_disciplines, disciplines_match.
  destruct (disciplines cfg) as [[|d ds]|]; simpl truthy_list; cbv iota.
  - simpl. f_equal. symmetry. now apply filter_all_true.
  - apply discipline_loop_spec.
  - simpl. f_equal. symmetry. now apply filter_all_true.
Qed.

Lemma step_year_spec (cfg : config) (df : list org_row) :
  step_year py (year cfg) df
  = if truthy_str (year cfg) && invalid_pattern py (arg_str (year cfg))
    then Raise ReError
    else Ok (filter (year_matches py cfg) df).
Proof.
  unfold step_year, year_matches, invalid_pattern, re_matches.
  destruct (truthy_str (year cfg)); cbn [andb].
  - now destruct (re_compile py (arg_str (year cfg))).
  - f_equal. symmetry. now apply filter_all_true.
Qed.

Lemma step_contribution_spec (cfg : config) (df : list org_row) :
  step_contribution py (contribution_min cfg) df
  = if contribution_raises py cfg df then Raise ValueError
    else Ok (filter (contribution_matches py cfg) df).
Proof.
  unfold step_contribution, contribution_raises, contribution_matches.
  destruct (truthy_num (contribution_min cfg)) eqn:T; simpl.
  - destruct (contribution_min cfg) as [th|]; [|discriminate].
    rewrite contribution_filter_spec.
    now destruct (forallb (coercible py) df).
  - f_equal. symmetry. now apply filter_all_true.
Qed.

Lemma step_field_spec (cfg : config) (P : list project_row) (O : list org_row) :
  step_field (field_filter cfg) (P, O)
  = if field_raises cfg P then Raise KeyError
    else Ok (filter (field_matches cfg) P,
             filter (fun r => negb (truthy_str (field_filter cfg))
                              || in_project (field_matches cfg) P r) O).
Proof.
  unfold step_field, field_matches, field_raises.
  destruct (truthy_str (field_filter cfg)); cbn [andb fst snd negb orb].
  - destruct (is_nil P); [reflexivity|].
    now rewrite restrict_to_projects_filter.
  - f_equal. f_equal; symmetry; now apply filter_all_true.
Qed.

Lemma project_type_loop_spec (calls : list string) (P : list project_row)
  (O : list org_row) :
  let q := fun p => forallb (fun call => str_in_cell call (fundingScheme p)) calls in
  project_type_loop calls (P, O)
  = if loop_raises calls P then Raise KeyError
    else Ok (filter q P,
             filter (fun r => match calls with
                              | [] => true
                              | _ :: _ => in_project q P r
                              end) O).
Proof.
  revert P O. induction calls as [|c calls IH]; intros P O q.
  - simpl. f_equal. f_equal; symmetry; now apply filter_all_true.
  - subst q. cbn [project_type_loop loop_raises].
    unfold project_type_filter. cbn [fst snd].
    destruct (is_nil P); cbn [bind orb]; [reflexivity|].
    rewrite IH. rewrite restrict_to_projects_filter.
    destruct (loop_raises calls _); [reflexivity|]. f_equal. f_equal.
    + rewrite filter_and. reflexivity.
    + destruct calls as [|c' calls'].
      * rewrite filter_and. apply filter_ext. intro r.
        rewrite andb_true_r. unfold in_project. apply existsb_ext.
        intro p. cbn [forallb]. now rewrite andb_true_r.
      * rewrite filter_and. apply filter_ext. intro r.
        rewrite in_project_filter.
        set (q' := fun p => str_in_cell c (fundingScheme p) &&
                            forallb (fun call => str_in_cell call (fundingScheme p)) (c' :: calls')).
        change (in_project (fun p => str_in_cell c (fundingScheme p)) P r
                && in_project q' P r
                = in_project q' P r).
        destruct (in_project q' P r) eqn:E; [|apply andb_false_r].
        apply in_project_weaken in E. now rewrite E.
Qed.

Lemma step_project_type_spec (cfg : config) (P : list project_row)
  (O : list org_row) :
  step_project_type (project_type cfg) (P, O)
  = if loop_raises (arg_list (project_type cfg)) P then Raise KeyError
    else Ok (filter (project_type_matches cfg) P,
             filter (fun r => negb (truthy_list (project_type cfg))
                              || in_project (project_type_matches cfg) P r) O).
Proof.
  unfold step_project_type, project_type_matches.
  destruct (project_type cfg) as [[|c calls]|]; simpl truthy_list; cbv iota.
  - simpl. f_equal. f_equal; symmetry; now apply filter_all_true.
  - apply project_type_loop_spec.
  - simpl. f_equal. f_equal; symmetry; now apply filter_all_true.
Qed.

Lemma before_contribution_spec (cfg : config) (types : list string)
  (t : tables) :
  before_contribution py cfg types t
  = if field_raises cfg (project_df t) then Raise KeyError
    else if text_raises py cfg then Raise ReError
    else Ok (filter (field_matches cfg) (project_df t),
             filter (early_matches py cfg types (project_df t))
                    (organization_df t)).
Proof.
  unfold before_contribution, text_raises.
  rewrite step_field_spec.
  destruct (field_raises cfg (project_df t)); [reflexivity|].
  cbn [bind fst snd].
  rewrite step_org_types_spec, step_countries_spec, step_disciplines_spec.
  destruct (existsb (invalid_pattern py) (arg_list (disciplines cfg)));
    [reflexivity|].
  cbn [bind orb]. rewrite step_year_spec.
  destruct (truthy_str (year cfg) && invalid_pattern py (arg_str (year cfg)));
    [reflexivity|].
  cbn [bind]. f_equal. f_equal. rewrite !filter_and. apply filter_ext.
  intro r. unfold early_matches. now rewrite !andb_assoc.
Qed.

(** The method is the blocks before the contribution block, then that
    block, then the project-type loop. *)
Lemma filter_engine_steps (cfg : config) (t : tables) :
  filter_engine py cfg t
  = (types <- resolve_org_types (org_types cfg) ;;
     fr <- before_contribution py cfg types t ;;
     df_org <- step_contribution py (contribution_min cfg) (snd fr) ;;
     step_project_type (project_type cfg) (fst fr, df_org)).
Proof.
  unfold filter_engine, before_contribution.
  destruct (resolve_org_types (org_types cfg)) as [types|e]; [|reflexivity].
  cbn [bind].
  destruct (step_field (field_filter cfg) (project_df t, organization_df t))
    as [st|e]; [|reflexivity].
  cbn [bind].
  destruct (step_disciplines py (disciplines cfg) _) as [df|e]; [|reflexivity].
  cbn [bind].
  destruct (step_year py (year cfg) df) as [df'|e]; reflexivity.
Qed.

Lemma project_type_matches_falsy (cfg : config) (p : project_row) :
  truthy_list (project_type cfg) = false -> project_type_matches cfg p = true.
Proof.
  unfold project_type_matches.
  now destruct (project_type cfg) as [[|c calls]|].
Qed.

Lemma field_matches_falsy (cfg : config) (p : project_row) :
  truthy_str (field_filter cfg) = false -> field_matches cfg p = true.
Proof.
  unfold field_matches. now intros ->.
Qed.

Lemma in_matching_project_spec (cfg : config) (P : list project_row)
  (r : org_row) :
  (negb (truthy_str (field_filter cfg)) || in_project (field_matches cfg) P r)
  && (negb (truthy_list (project_type cfg))
      || in_project (project_type_matches cfg) (filter (field_matches cfg) P) r)
  = in_matching_project cfg P r.
Proof.
  unfold in_matching_project. rewrite in_project_filter.
  fold (project_matches cfg).
  change (fun p => field_matches cfg p && project_type_matches cfg p)
    with (project_matches cfg).
  destruct (truthy_str (field_filter cfg)) eqn:Tf;
    destruct (truthy_list (project_type cfg)) eqn:Tp; cbn [negb orb andb].
  - destruct (in_project (project_matches cfg) P r) eqn:E;
      [|apply andb_false_r].
    apply in_project_weaken in E. now rewrite E.
  - rewrite andb_true_r. unfold in_project. apply existsb_ext. intro p.
    unfold project_matches. now rewrite project_type_matches_falsy, andb_true_r.
  - reflexivity.
  - reflexivity.
Qed.

(** The engine raises the error of the first block that raises and
    otherwise keeps the rows that pass the conjunction of the predicates
    of the call. *)
Lemma filter_engine_spec (cfg : config) (t : tables) :
  filter_engine py cfg t
  = (types <- resolve_org_types (org_types cfg) ;;
     match engine_error py cfg types t with
     | Some e => Raise e
     | None =>
         Ok (filter (project_matches cfg) (project_df t),
             filter (org_matches py cfg types (project_df t))
                    (organization_df t))
     end).
Proof.
  rewrite filter_engine_steps. unfold engine_error, project_type_raises.
  destruct (resolve_org_types (org_types cfg)) as [types|e]; [|reflexivity].
  cbn [bind]. rewrite before_contribution_spec.
  destruct (field_raises cfg (project_df t)); [reflexivity|].
  destruct (text_raises py cfg); [reflexivity|].
  cbn [bind fst snd]. rewrite step_contribution_spec.
  destruct (contribution_raises py cfg _); [reflexivity|].
  cbn [bind]. rewrite step_project_type_spec.
  destruct (loop_raises _ _); [reflexivity|]. f_equal. f_equal.
  - now rewrite filter_and.
  - rewrite !filter_and. apply filter_ext. intro r.
    unfold org_matches, early_matches. rewrite <- in_matching_project_spec.
    destruct (negb (truthy_str (field_filter cfg))
              || in_project (field_matches cfg) (project_df t) r);
    destruct (negb (truthy_list (project_type cfg))
              || in_project (project_type_matches cfg)
                   (filter (field_matches cfg) (project_df t)) r);
    destruct (org_type_matches types r); destruct (country_matches cfg r);
    destruct (disciplines_match py cfg r); destruct (year_matches py cfg r);
    destruct (contribution_matches py cfg r); reflexivity.
Qed.

(** A completed engine returns the rows that pass the conjunction. *)
Lemma engine_frames (cfg : config) (t : tables) (st : frames) :
  filter_engine py cfg t = Ok st ->
  exists types,
    resolve_org_types (org_types cfg) = Ok types /\
    engine_error py cfg types t = None /\
    st = (filter (project_matches cfg) (project_df t),
          filter (org_matches py cfg types (project_df t))
                 (organization_df t)).
Proof.
  rewrite filter_engine_spec.
  destruct (resolve_org_types (org_types cfg)) as [types|e]; [|discriminate].
  cbn [bind].
  destruct (engine_error py cfg types t) eqn:Er; [discriminate|].
  intro H. injection H as <-. now exists types.
Qed.
End EngineFacts.

(** * The aggregation *)

Lemma retained_projects_groups (py : library)
  (cfg : config) (t : tables) (kept : list (Z * list string)) :
  retained_projects py cfg t = Ok kept ->
  exists st,
    filter_engine py cfg t = Ok st /\
    groupby_names (project_name_pairs (snd st)) <> [] /\
    kept = head (max_projects cfg)
             (filter (enough_participants (min_participants cfg))
                     (groupby_names (project_name_pairs (snd st)))).
Proof.
  unfold retained_projects.
  destruct (filter_engine py cfg t) as [st|e]; [|discriminate].
  cbn [bind]. unfold select_collaborations. intro H. exists st.
  destruct (groupby_names (project_name_pairs (snd st))) as [|g l] eqn:E;
    [discriminate|].
  injection H as <-. repeat split. discriminate.
Qed.

Lemma retained_names_NoDup (py : library)
  (cfg : config) (t : tables) (kept : list (Z * list string))
  (pid : Z) (names : list string) :
  retained_projects py cfg t = Ok kept ->
  In (pid, names) kept -> NoDup names.
Proof.
  intros H Hin. apply retained_projects_groups in H.
  destruct H as [st [_ [_ ->]]]. apply head_incl, filter_In in Hin.
  destruct Hin as [Hin _]. now apply grouped_names_NoDup in Hin.
Qed.

Lemma plot_retained (py : library)
  (cfg : config) (t : tables) (fig : Figure) :
  plot_collaboration_network py cfg t = Ok fig ->
  exists kept,
    retained_projects py cfg t = Ok kept /\
    graph fig = build_graph (Counter edge_eqb (edge_list kept)).
Proof.
  unfold plot_collaboration_network.
  destruct (retained_projects py cfg t) as [kept|e]; [|discriminate].
  cbn [bind]. intro H. injection H as <-. now exists kept.
Qed.

Lemma edge_list_In (collab_df : list (Z * list string)) (u v : string) :
  In (u, v) (edge_list collab_df) ->
  exists pid names, In (pid, names) collab_df /\ In (u, v) (combinations names).
Proof.
  unfold edge_list. rewrite in_flat_map. intros [[pid names] [Hg H]].
  now exists pid, names.
Qed.

Lemma edge_list_app (l1 l2 : list (Z * list string)) :
  edge_list (l1 ++ l2) = edge_list l1 ++ edge_list l2.
Proof. apply flat_map_app. Qed.

Lemma edge_list_length (collab_df : list (Z * list string)) :
  List.length (edge_list collab_df)
  = list_sum (map (fun g => (List.length (snd g) * (List.length (snd g) - 1) / 2)%nat)
                  collab_df).
Proof.
  induction collab_df as [|g l IH]; simpl; [reflexivity|].
  now rewrite length_app, combinations_length, IH.
Qed.

(** Every edge of the graph carries a count of the [Counter], which is at
    least 1. *)
Lemma edge_weights_positive (py : library)
  (cfg : config) (t : tables) (fig : Figure) (u v : string) (w : nat) :
  plot_collaboration_network py cfg t = Ok fig ->
  In (u, v, w) (edges (graph fig)) -> (1 <= w)%nat.
Proof.
  intros H Hin. apply plot_retained in H. destruct H as [kept [_ Hg]].
  rewrite Hg in Hin.
  apply (build_graph_satisfy (fun _ _ => True) (fun n => (1 <= n)%nat)) in Hin;
    [tauto|].
  intros a b n Hc. split; [exact I|].
  exact (Counter_positive edge_eqb (edge_list kept) (a, b) n Hc).
Qed.

(** The call completes as soon as the filters complete and leave an
    organization row. *)
Lemma plot_completes (py : library)
  (cfg : config) (t : tables) (st : frames) :
  filter_engine py cfg t = Ok st ->
  snd st <> [] ->
  plot_collaboration_network py cfg t
  = Ok {| graph :=
            build_graph
              (Counter edge_eqb
                 (edge_list
                    (head (max_projects cfg)
                       (filter (enough_participants (min_participants cfg))
                          (groupby_names (project_name_pairs (snd st)))))));
          title := figure_title (field_filter cfg) |}.
Proof.
  intros Hst Hne.
  unfold plot_collaboration_network, retained_projects. rewrite Hst.
  cbn [bind]. unfold select_collaborations.
  destruct (groupby_names (project_name_pairs (snd st))) as [|g l] eqn:E.
  - apply groupby_names_nil, project_name_pairs_nil in E. contradiction.
  - reflexivity.
Qed.

(** * The claims *)

(** C1 (weight of an edge = number of retained projects listing both
    names): fails on the code.  The [Counter] keys are ordered tuples and
    [add_edge] overwrites the weight of an edge that exists: two projects
    that list Inst A and Inst B in opposite orders give the edge the
    weight 1, while both names occur together in 2 retained projects. *)
Theorem C1_reversed_listing_weight :
  exists fig kept,
    plot_collaboration_network plain default_config reversed_listing
    = Ok fig /\
    retained_projects plain default_config reversed_listing
    = Ok kept /\
    kept = [(1%Z, ["Inst A"; "Inst B"]); (2%Z, ["Inst B"; "Inst A"])] /\
    Counter edge_eqb (edge_list kept)
    = [("Inst A", "Inst B", 1%nat); ("Inst B", "Inst A", 1%nat)] /\
    edge_weight (graph fig) "Inst A" "Inst B" = Some 1%nat /\
    cooccurrences kept "Inst A" "Inst B" = 2%nat.
Proof.
  eexists. eexists. repeat split; reflexivity.
Qed.

(** C2 (truncation before aggregation): with [max_projects >= 0], the
    rows the edge loop runs over are the first [max_projects] projects
    that pass the participant check; the [Counter] counts the edge
    instances of those projects only, and the instances of the projects
    that are cut are exactly the ones left out; the call completes with
    that graph whenever the filters complete and leave an organization
    row.  In the scenario of the spec with [max_projects = 1], only P1 is
    kept and the three edges have weight 1. *)
Theorem C2_truncation_before_aggregation :
  (forall (py : library) (cfg : config) (t : tables)
          (fig : Figure),
      (0 <= max_projects cfg)%Z ->
      plot_collaboration_network py cfg t = Ok fig ->
      exists st,
        filter_engine py cfg t = Ok st /\
        let survivors :=
          filter (enough_participants (min_participants cfg))
                 (groupby_names (project_name_pairs (snd st))) in
        let kept := firstn (Z.to_nat (max_projects cfg)) survivors in
        let cut := skipn (Z.to_nat (max_projects cfg)) survivors in
        retained_projects py cfg t = Ok kept /\
        graph fig = build_graph (Counter edge_eqb (edge_list kept)) /\
        (forall e, count_of edge_eqb (Counter edge_eqb (edge_list kept)) e
                   = occurrences edge_eqb e (edge_list kept)) /\
        edge_list survivors = edge_list kept ++ edge_list cut) /\
  (forall (py : library) (cfg : config) (t : tables)
          (st : frames),
      (0 <= max_projects cfg)%Z ->
      filter_engine py cfg t = Ok st ->
      snd st <> [] ->
      exists fig,
        plot_collaboration_network py cfg t = Ok fig /\
        graph fig
        = build_graph
            (Counter edge_eqb
               (edge_list
                  (firstn (Z.to_nat (max_projects cfg))
                     (filter (enough_participants (min_participants cfg))
                        (groupby_names (project_name_pairs (snd st)))))))) /\
  retained_projects plain (with_limits default_config 1 2) scenario
  = Ok [(1%Z, ["Inst A"; "Inst B"; "Inst C"])] /\
  plot_collaboration_network plain (with_limits default_config 1 2)
    scenario
  = Ok {| graph :=
            {| nodes := ["Inst A"; "Inst B"; "Inst C"];
               edges := [("Inst A", "Inst B", 1%nat);
                         ("Inst A", "Inst C", 1%nat);
                         ("Inst B", "Inst C", 1%nat)] |};
          title := "Institution Collaboration Network" |}.
Proof.
  split; [|split; [|split; reflexivity]].
  - intros py cfg t fig Hmax Hplot.
    apply plot_retained in Hplot. destruct Hplot as [kept [Hkept Hgraph]].
    destruct (retained_projects_groups _ _ _ _ Hkept) as [st [Hst [_ Ek]]].
    exists st. split; [assumption|]. cbv zeta.
    rewrite head_nonneg in Ek by assumption. subst kept.
    repeat split; try assumption.
    + intro e. apply (Counter_count edge_eqb edge_eqb_spec).
    + rewrite <- edge_list_app. now rewrite firstn_skipn.
  - intros py cfg t st Hmax Hst Hne.
    eexists. split; [exact (plot_completes _ _ _ _ Hst Hne)|]. cbn [graph].
    now rewrite head_nonneg.
Qed.

Lemma C2_truncation_before_aggregation_witness :
  exists st,
    filter_engine plain (with_limits default_config 1 2) scenario
    = Ok st /\
    retained_projects plain (with_limits default_config 1 2) scenario
    = Ok (firstn 1
            (filter (enough_participants 2)
                    (groupby_names (project_name_pairs (snd st))))).
Proof.
  destruct (proj1 C2_truncation_before_aggregation plain
              (with_limits default_config 1 2) scenario
              {| graph :=
                   {| nodes := ["Inst A"; "Inst B"; "Inst C"];
                      edges := [("Inst A", "Inst B", 1%nat);
                                ("Inst A", "Inst C", 1%nat);
                                ("Inst B", "Inst C", 1%nat)] |};
                 title := "Institution Collaboration Network" |})
    as [st [Hst [Hkept _]]].
  - simpl. lia.
  - reflexivity.
  - exists st. split; [exact Hst|exact Hkept].
Defined.

(** C5 (edge count law): a retained project lists [k] distinct names and
    yields exactly [k * (k - 1) / 2] edge instances, no two of them equal,
    none joining a name with itself, and none the reverse of another; the
    edge list is as long as the sum of these numbers. *)
Theorem C5_edge_count_law :
  forall (py : library) (cfg : config) (t : tables)
         (kept : list (Z * list string)) (pid : Z) (names : list string),
    retained_projects py cfg t = Ok kept ->
    In (pid, names) kept ->
    NoDup names /\
    List.length (combinations names)
    = (List.length names * (List.length names - 1) / 2)%nat /\
    NoDup (combinations names) /\
    (forall u v, In (u, v) (combinations names) ->
                 u <> v /\ ~ In (v, u) (combinations names)) /\
    List.length (edge_list kept)
    = list_sum (map (fun g => (List.length (snd g) * (List.length (snd g) - 1) / 2)%nat)
                    kept).
Proof.
  intros py cfg t kept pid names Hkept Hin.
  assert (Hnd : NoDup names) by exact (retained_names_NoDup _ _ _ _ _ _ Hkept Hin).
  split; [exact Hnd|]. split; [apply combinations_length|].
  split; [now apply combinations_NoDup|]. split.
  - intros u v Huv. split.
    + now apply (combinations_distinct names).
    + now apply combinations_one_direction.
  - apply edge_list_length.
Qed.

Lemma C5_edge_count_law_witness :
  NoDup ["Inst A"; "Inst B"; "Inst C"] /\
  List.length (combinations ["Inst A"; "Inst B"; "Inst C"]) = 3%nat.
Proof.
  destruct (C5_edge_count_law plain default_config scenario
              [(1%Z, ["Inst A"; "Inst B"; "Inst C"]);
               (2%Z, ["Inst A"; "Inst B"])]
              1%Z ["Inst A"; "Inst B"; "Inst C"])
    as [Hnd [Hlen _]].
  - reflexivity.
  - simpl. left. reflexivity.
  - split; [exact Hnd|exact Hlen].
Defined.

(** C6 (no self-loops): no edge of the output graph joins a name with
    itself, whatever rows the organization table repeats. *)
Theorem C6_no_self_loops :
  forall (py : library) (cfg : config) (t : tables)
         (fig : Figure),
    plot_collaboration_network py cfg t = Ok fig ->
    (forall u v w, In (u, v, w) (edges (graph fig)) -> u <> v) /\
    (forall u, edge_weight (graph fig) u u = None).
Proof.
  intros py cfg t fig Hplot.
  destruct (plot_retained _ _ _ _ Hplot) as [kept [Hkept Hgraph]].
  assert (Hedges : forall u v w, In (u, v, w) (edges (graph fig)) -> u <> v).
  { intros u v w Hin. rewrite Hgraph in Hin.
    apply (build_graph_satisfy (fun a b => a <> b) (fun _ => True)) in Hin;
      [tauto|].
    intros a b n Hc. split; [|exact I].
    apply (Counter_keys edge_eqb) in Hc.
    apply edge_list_In in Hc. destruct Hc as [pid [names [Hg Hc]]].
    apply (combinations_distinct names); [|assumption].
    exact (retained_names_NoDup _ _ _ _ _ _ Hkept Hg). }
  split; [exact Hedges|].
  intro u. unfold edge_weight.
  destruct (edge_weight_in (edges (graph fig)) u u) as [w|] eqn:E; [|reflexivity].
  apply edge_weight_in_Some in E. destruct E as [a [b [Hin Hs]]].
  apply same_edge_loop in Hs. subst b. now apply Hedges in Hin.
Qed.

Lemma C6_no_self_loops_witness :
  edge_weight
    {| nodes := ["Inst A"; "Inst B"];
       edges := [("Inst A", "Inst B", 1%nat)] |} "Inst A" "Inst A" = None.
Proof.
  exact (proj2 (C6_no_self_loops plain default_config duplicate_rows
                  {| graph := {| nodes := ["Inst A"; "Inst B"];
                                 edges := [("Inst A", "Inst B", 1%nat)] |};
                     title := "Institution Collaboration Network" |}
                  eq_refl) "Inst A").
Defined.


Lemma coercible_text (py : library) (r : org_row) :
  coercible py r = false <->
  exists s, contribution r = Str s /\ float_of_str py s = None.
Proof.
  unfold coercible, astype_float.
  destruct (contribution r) as [|q|s].
  - split; [discriminate|]. intros [s [H _]]. discriminate.
  - split; [discriminate|]. intros [s [H _]]. discriminate.
  - destruct (float_of_str py s) eqn:E; split; try discriminate.
    + intros [s' [H H']]. injection H as <-. congruence.
    + intros _. now exists s.
    + reflexivity.
Qed.

Lemma plot_raises_with_engine (py : library)
  (cfg : config) (t : tables) (e : error) :
  filter_engine py cfg t = Raise e ->
  plot_collaboration_network py cfg t = Raise e.
Proof.
  intro H. unfold plot_collaboration_network, retained_projects.
  now rewrite H.
Qed.


(** C3 (an unparseable contribution value is excluded without raising):
    fails on the code at a concrete table; with a threshold of 500 the
    text 12,5 in the contribution column makes the engine, and the call,
    raise ValueError. *)
Lemma C3_text_contribution_raises :
  filter_engine plain
    (with_contribution default_config (Some (inject_Z 500))) text_contribution
  = Raise ValueError /\
  plot_collaboration_network plain
    (with_contribution default_config (Some (inject_Z 500))) text_contribution
  = Raise ValueError.
Proof. split; reflexivity. Qed.

(** C3, amended: with a non-zero contribution threshold, and the blocks
    before the contribution block completed, the contribution block and
    the call raise ValueError when a record that reaches the block holds
    a text that [float] rejects.  When every text that reaches the block
    converts, the block completes without raising: it drops every record
    with a missing contribution, keeps a record with a number or a
    converted text exactly when the float64 value is at least the
    threshold, and the call does not raise ValueError; the filters then
    complete unless a turn of the project-type loop runs on an emptied
    project frame and raises KeyError, and the rows of a completed call
    are among the rows the block kept. *)
Theorem C3_contribution_coercion :
  forall (py : library) (cfg : config) (t : tables)
         (types : list string) (th : Q) (fr : frames),
    resolve_org_types (org_types cfg) = Ok types ->
    contribution_min cfg = Some th ->
    Qeq_bool th 0 = false ->
    before_contribution py cfg types t = Ok fr ->
    ((exists r s, In r (snd fr) /\ contribution r = Str s /\
                  float_of_str py s = None) ->
     step_contribution py (contribution_min cfg) (snd fr) = Raise ValueError /\
     filter_engine py cfg t = Raise ValueError /\
     plot_collaboration_network py cfg t = Raise ValueError) /\
    ((forall r s, In r (snd fr) -> contribution r = Str s ->
                  float_of_str py s <> None) ->
     exists df,
       step_contribution py (contribution_min cfg) (snd fr) = Ok df /\
       (forall r, In r df -> In r (snd fr)) /\
       (forall r, In r (snd fr) -> contribution r = NaN -> ~ In r df) /\
       (forall r q, In r (snd fr) -> contribution r = Num q ->
                    (In r df <->
                     Qle_bool (round64 py th) (round64 py q) = true)) /\
       (forall r s, In r (snd fr) -> contribution r = Str s ->
                    (In r df <->
                     exists v, float_of_str py s = Some v /\
                               ge_threshold (round64 py th) v = true)) /\
       filter_engine py cfg t <> Raise ValueError /\
       (filter_engine py cfg t = Raise KeyError <->
        loop_raises (arg_list (project_type cfg)) (fst fr) = true) /\
       ((exists st, filter_engine py cfg t = Ok st) <->
        loop_raises (arg_list (project_type cfg)) (fst fr) = false) /\
       (forall st, filter_engine py cfg t = Ok st ->
                   forall r, In r (snd st) -> In r df)).
Proof.
  intros py cfg t types th fr Hty Hth Hnz Hfr.
  assert (Htruthy : truthy_num (contribution_min cfg) = true).
  { rewrite Hth. simpl. now rewrite Hnz. }
  pose proof (filter_engine_steps py cfg t) as Hsteps.
  rewrite Hty in Hsteps. cbn [bind] in Hsteps.
  rewrite Hfr in Hsteps. cbn [bind] in Hsteps.
  pose proof (step_contribution_spec py cfg (snd fr)) as Hstep.
  unfold contribution_raises in Hstep. rewrite Htruthy in Hstep.
  cbn [andb] in Hstep. split.
  - intros [r [s [Hin [Hr Hs]]]].
    assert (Hall : forallb (coercible py) (snd fr) = false).
    { apply not_true_is_false. intro Hall.
      rewrite forallb_forall in Hall. specialize (Hall r Hin).
      assert (Hc : coercible py r = false)
        by (apply coercible_text; now exists s).
      congruence. }
    rewrite Hall in Hstep. cbn [negb] in Hstep.
    rewrite Hstep in Hsteps. cbn [bind] in Hsteps.
    split; [exact Hstep|]. split; [exact Hsteps|].
    now apply plot_raises_with_engine.
  - intro Hok.
    assert (Hall : forallb (coercible py) (snd fr) = true).
    { apply forallb_forall. intros r Hin.
      destruct (coercible py r) eqn:E; [reflexivity|].
      apply coercible_text in E. destruct E as [s [Hr Hs]].
      now apply (Hok r s Hin Hr) in Hs. }
    rewrite Hall in Hstep. cbn [negb] in Hstep.
    rewrite Hstep in Hsteps. cbn [bind] in Hsteps.
    eexists. split; [exact Hstep|].
    assert (Hmem : forall r,
               In r (filter (contribution_matches py cfg) (snd fr)) <->
               In r (snd fr) /\
               ge_threshold (round64 py th) (contribution_value py r) = true).
    { intro r. rewrite filter_In. unfold contribution_matches.
      now rewrite Htruthy, Hth. }
    split; [|split; [|split; [|split; [|split; [|split; [|split]]]]]].
    + intros r Hr. now apply Hmem in Hr.
    + intros r _ Hr Hin. apply Hmem in Hin. destruct Hin as [_ Hin].
      unfold contribution_value in Hin. rewrite Hr in Hin. discriminate.
    + intros r q Hin Hr. rewrite Hmem. unfold contribution_value.
      rewrite Hr. cbn [astype_float ge_threshold]. tauto.
    + intros r s Hin Hr. rewrite Hmem. unfold contribution_value.
      rewrite Hr. cbn [astype_float].
      destruct (float_of_str py s) as [v|] eqn:Ev.
      * split.
        -- intros [_ H]. now exists v.
        -- intros [v' [E H]]. injection E as <-. tauto.
      * now apply (Hok r s Hin Hr) in Ev.
    + rewrite Hsteps, step_project_type_spec.
      destruct (loop_raises _ _); discriminate.
    + rewrite Hsteps, step_project_type_spec.
      destruct (loop_raises _ _); split; (reflexivity || discriminate).
    + rewrite Hsteps, step_project_type_spec.
      destruct (loop_raises _ _); split; try discriminate;
        try (intros [st Hst]; discriminate); try reflexivity.
      intros _. eexists. reflexivity.
    + intros st Hst r Hr. rewrite Hsteps, step_project_type_spec in Hst.
      destruct (loop_raises _ _); [discriminate|].
      injection Hst as <-. cbn [snd] in Hr. now apply filter_In in Hr.
Qed.

Lemma C3_contribution_coercion_witness :
  (filter_engine plain
     (with_contribution default_config (Some (inject_Z 500))) text_contribution
   = Raise ValueError) /\
  (exists df,
     step_contribution plain (Some (inject_Z 500))
       (organization_df mixed_contributions) = Ok df /\
     ~ In (org_with 1 "Inst B" (Some "HES") (Some "BE") (Some "biology")
             (Some "2021-01-01") NaN) df) /\
  (filter_engine plain
     (with_project_type
        (with_contribution default_config (Some (inject_Z 500)))
        (Some ["ERC"; "RIA"])) scenario
   = Raise KeyError).
Proof.
  split; [|split].
  - apply (proj1 (C3_contribution_coercion plain
                    (with_contribution default_config (Some (inject_Z 500)))
                    text_contribution ["HES"; "REC"; "PUB"; "PRC"; "SME"]
                    (inject_Z 500)
                    (project_df text_contribution,
                     organization_df text_contribution)
                    eq_refl eq_refl eq_refl eq_refl)).
    exists (org_with 1 "Inst C" (Some "HES") (Some "FR") (Some "biology")
              (Some "2021-01-01") (Str "12,5")), "12,5".
    split; [|split; reflexivity]. simpl. right. right. left. reflexivity.
  - destruct (proj2 (C3_contribution_coercion plain
                       (with_contribution default_config (Some (inject_Z 500)))
                       mixed_contributions ["HES"; "REC"; "PUB"; "PRC"; "SME"]
                       (inject_Z 500)
                       (project_df mixed_contributions,
                        organization_df mixed_contributions)
                       eq_refl eq_refl eq_refl eq_refl))
      as [df [Hdf [_ [Hnan _]]]].
    + intros r s Hin Hr. simpl in Hin.
      destruct Hin as [<-|[<-|[<-|[]]]]; discriminate.
    + exists df. split; [exact Hdf|]. apply Hnan; [|reflexivity].
      simpl. right. left. reflexivity.
  - destruct (proj2 (C3_contribution_coercion plain
                       (with_project_type
                          (with_contribution default_config
                             (Some (inject_Z 500)))
                          (Some ["ERC"; "RIA"]))
                       scenario ["HES"; "REC"; "PUB"; "PRC"; "SME"]
                       (inject_Z 500)
                       (project_df scenario, organization_df scenario)
                       eq_refl eq_refl eq_refl eq_refl))
      as [df [_ [_ [_ [_ [_ [_ [Hkey _]]]]]]]].
    + intros r s Hin Hr. simpl in Hin.
      destruct Hin as [<-|[<-|[<-|[<-|[<-|[]]]]]]; discriminate.
    + apply Hkey. reflexivity.
Defined.

(** C4 (a validation error for [min_participants < 2] or
    [max_projects <= 0]): fails on the code at a concrete call; with
    [min_participants = 1] and [max_projects = 0] the call completes and
    shows the empty graph. *)
Lemma C4_limits_accepted :
  plot_collaboration_network plain (with_limits default_config 0 1)
    scenario
  = Ok {| graph := empty_graph; title := "Institution Collaboration Network" |}.
Proof. reflexivity. Qed.

(** C4, amended: the method does not validate [min_participants] or
    [max_projects].  With [min_participants < 2] or [max_projects <= 0]
    the filters run as for any other call and, when they complete and
    leave an organization row, the call completes with the graph of
    [head(max_projects)] of the projects that list at least
    [min_participants] names; for [max_projects = 0] this is the empty
    graph. *)
Theorem C4_limits_not_validated :
  forall (py : library) (cfg : config) (t : tables)
         (st : frames),
    (min_participants cfg < 2)%Z \/ (max_projects cfg <= 0)%Z ->
    filter_engine py cfg t = Ok st ->
    snd st <> [] ->
    exists fig,
      plot_collaboration_network py cfg t = Ok fig /\
      graph fig
      = build_graph
          (Counter edge_eqb
             (edge_list
                (head (max_projects cfg)
                   (filter (enough_participants (min_participants cfg))
                      (groupby_names (project_name_pairs (snd st))))))) /\
      (max_projects cfg = 0%Z -> graph fig = empty_graph).
Proof.
  intros py cfg t st _ Hst Hne.
  eexists. split; [exact (plot_completes _ _ _ _ Hst Hne)|]. cbn [graph].
  split; [reflexivity|]. intros ->. reflexivity.
Qed.

Lemma C4_limits_not_validated_witness :
  exists fig,
    plot_collaboration_network plain (with_limits default_config 0 1)
      scenario = Ok fig /\
    graph fig = empty_graph.
Proof.
  destruct (C4_limits_not_validated plain
              (with_limits default_config 0 1) scenario
              (project_df scenario, organization_df scenario))
    as [fig [Hfig [_ Hempty]]].
  - left. simpl. lia.
  - reflexivity.
  - discriminate.
  - exists fig. split; [exact Hfig|]. apply Hempty. reflexivity.
Defined.

(** C8 (a missing discipline or start date never passes the filter):
    fails on the code.  [astype(str)] turns the missing value into the
    text nan before [str.contains] runs, so [na=False] never applies: the
    partner without discipline passes the discipline filter "a", and the
    partner without start date passes a year filter that occurs in
    "nan", while the partner of discipline biology is dropped. *)
Theorem C8_missing_value_read_as_nan :
  filter_engine plain (with_disciplines default_config (Some ["a"]))
    missing_fields
  = Ok ([proj 1],
        [org_with 1 "Inst B" (Some "HES") (Some "BE") None None
           (Num (inject_Z 1000))]) /\
  filter_engine plain (with_year default_config (Some "nan"))
    missing_fields
  = Ok ([proj 1],
        [org_with 1 "Inst B" (Some "HES") (Some "BE") None None
           (Num (inject_Z 1000))]) /\
  (forall pid nm ty ctry date c,
      discipline_filter plain "a" [org_with pid nm ty ctry None date c]
      = Ok [org_with pid nm ty ctry None date c]) /\
  (forall pid nm ty ctry disc c,
      step_year plain (Some "nan") [org_with pid nm ty ctry disc None c]
      = Ok [org_with pid nm ty ctry disc None c]).
Proof.
  repeat split; reflexivity.
Qed.

(** C9 (a call that matches no organization record shows an empty
    figure): fails on the code.  A field filter that no project passes
    leaves no organization row; the grouped frame is empty, the mask on
    the participant count selects no column and the read of column
    [name] raises KeyError. *)
Theorem C9_no_match_raises :
  filter_engine plain (with_field_filter default_config (Some "physics"))
    scenario = Ok ([], []) /\
  plot_collaboration_network plain
    (with_field_filter default_config (Some "physics")) scenario
  = Raise KeyError.
Proof. split; reflexivity. Qed.

(** C10 (falsy arguments disable their filters): the empty list for
    [org_types] restricts nothing: it acts as any list that holds every
    activity type of the table, and what the default five types keep is
    what they select from its result; [contribution = 0],
    [countries = []], [disciplines = []], [year = ""] and
    [project_type = []] give the call of the argument left out, so that
    with [contribution = 0] records with a missing or negative
    contribution stay. *)
Theorem C10_falsy_arguments_skip :
  forall (py : library) (cfg : config) (t : tables),
    (forall df, step_org_types [] df = df) /\
    (forall types,
        types <> [] ->
        (forall r, In r (organization_df t) ->
                   isin (astype_str (activityType r)) types = true) ->
        filter_engine py (with_org_types cfg (OTList [])) t
        = filter_engine py (with_org_types cfg (OTList types)) t) /\
    (forall st0 st1,
        filter_engine py (with_org_types cfg OTNone) t = Ok st0 ->
        filter_engine py (with_org_types cfg (OTList [])) t = Ok st1 ->
        fst st0 = fst st1 /\
        snd st0
        = filter (fun r => isin (astype_str (activityType r))
                             ["HES"; "REC"; "PUB"; "PRC"; "SME"]) (snd st1)) /\
    (forall df, step_contribution py (Some 0) df = Ok df) /\
    plot_collaboration_network py (with_contribution cfg (Some 0)) t
    = plot_collaboration_network py (with_contribution cfg None) t /\
    plot_collaboration_network py (with_countries cfg (Some [])) t
    = plot_collaboration_network py (with_countries cfg None) t /\
    plot_collaboration_network py (with_disciplines cfg (Some [])) t
    = plot_collaboration_network py (with_disciplines cfg None) t /\
    plot_collaboration_network py (with_year cfg (Some "")) t
    = plot_collaboration_network py (with_year cfg None) t /\
    plot_collaboration_network py (with_project_type cfg (Some [])) t
    = plot_collaboration_network py (with_project_type cfg None) t /\
    filter_engine plain
      (with_contribution (with_org_types default_config (OTList [])) (Some 0))
      other_partners
    = Ok (project_df other_partners, organization_df other_partners) /\
    filter_engine plain default_config other_partners
    = Ok (project_df other_partners, [org 1 "Inst A";
            org_with 1 "Inst C" (Some "HES") (Some "BE") (Some "biology")
              (Some "2021-01-01") (Num (inject_Z (-5)))]).
Proof.
  intros py cfg t.
  split; [reflexivity|]. split; [|split; [|repeat split; reflexivity]].
  - intros types Hne Hall. rewrite !filter_engine_spec.
    cbn [bind with_org_types org_types resolve_org_types].
    assert (He : filter (early_matches py (with_org_types cfg (OTList []))
                           [] (project_df t)) (organization_df t)
                 = filter (early_matches py (with_org_types cfg (OTList types))
                             types (project_df t)) (organization_df t)).
    { apply filter_ext_in. intros r Hr. unfold early_matches, org_type_matches.
      destruct types as [|ty tys]; [contradiction|]. now rewrite (Hall r Hr). }
    assert (Ho : filter (org_matches py (with_org_types cfg (OTList []))
                           [] (project_df t)) (organization_df t)
                 = filter (org_matches py (with_org_types cfg (OTList types))
                             types (project_df t)) (organization_df t)).
    { apply filter_ext_in. intros r Hr. unfold org_matches, org_type_matches.
      destruct types as [|ty tys]; [contradiction|]. now rewrite (Hall r Hr). }
    unfold engine_error. rewrite He, Ho. reflexivity.
  - intros st0 st1. rewrite !filter_engine_spec.
    cbn [bind with_org_types org_types resolve_org_types].
    destruct (engine_error _ _ _ _); [discriminate|].
    destruct (engine_error _ _ _ _); [discriminate|].
    intros H0 H1. injection H0 as <-. injection H1 as <-. cbn [fst snd].
    split; [reflexivity|]. rewrite filter_and. apply filter_ext. intro r.
    unfold org_matches, org_type_matches.
    change (in_matching_project (with_org_types cfg OTNone) (project_df t) r)
      with (in_matching_project (with_org_types cfg (OTList [])) (project_df t) r).
    change (country_matches (with_org_types cfg OTNone) r)
      with (country_matches (with_org_types cfg (OTList [])) r).
    change (disciplines_match py (with_org_types cfg OTNone) r)
      with (disciplines_match py (with_org_types cfg (OTList [])) r).
    change (year_matches py (with_org_types cfg OTNone) r)
      with (year_matches py (with_org_types cfg (OTList [])) r).
    change (contribution_matches py (with_org_types cfg OTNone) r)
      with (contribution_matches py (with_org_types cfg (OTList [])) r).
    destruct (in_matching_project _ _ r); destruct (country_matches _ r);
      destruct (disciplines_match _ _ r); destruct (year_matches _ _ r);
      destruct (contribution_matches _ _ r);
      destruct (isin (astype_str (activityType r)) _); reflexivity.
Qed.

Lemma C10_falsy_arguments_skip_witness :
  filter_engine plain (with_org_types default_config (OTList []))
    other_partners
  = filter_engine plain
      (with_org_types default_config (OTList ["HES"; "OTH"])) other_partners /\
  [org 1 "Inst A";
   org_with 1 "Inst C" (Some "HES") (Some "BE") (Some "biology")
     (Some "2021-01-01") (Num (inject_Z (-5)))]
  = filter (fun r => isin (astype_str (activityType r))
                       ["HES"; "REC"; "PUB"; "PRC"; "SME"])
           (organization_df other_partners).
Proof.
  destruct (C10_falsy_arguments_skip plain default_config
              other_partners) as [_ [Hall [Hdefault _]]].
  split.
  - apply Hall; [discriminate|].
    intros r Hr. vm_compute in Hr.
    destruct Hr as [<-|[<-|[<-|[]]]]; reflexivity.
  - exact (proj2 (Hdefault
                    (project_df other_partners,
                     [org 1 "Inst A";
                      org_with 1 "Inst C" (Some "HES") (Some "BE")
                        (Some "biology") (Some "2021-01-01")
                        (Num (inject_Z (-5)))])
                    (project_df other_partners, organization_df other_partners)
                    eq_refl eq_refl)).
Defined.

(** * Criteria one at a time *)

Section CriteriaFacts.
Variable py : library.

















End CriteriaFacts.




(** When organization rows remain but no project lists enough names, the
    call completes with the empty graph. *)
Lemma no_qualifying_project_empty_graph (py : library)
  (cfg : config) (t : tables) (st : frames) :
  filter_engine py cfg t = Ok st ->
  snd st <> [] ->
  (forall g, In g (groupby_names (project_name_pairs (snd st))) ->
             enough_participants (min_participants cfg) g = false) ->
  plot_collaboration_network py cfg t
  = Ok {| graph := empty_graph; title := figure_title (field_filter cfg) |}.
Proof.
  intros Hst Hne Hnone.
  unfold plot_collaboration_network, retained_projects. rewrite Hst.
  cbn [bind]. unfold select_collaborations.
  destruct (groupby_names (project_name_pairs (snd st))) as [|g l] eqn:E.
  - apply groupby_names_nil, project_name_pairs_nil in E. contradiction.
  - apply filter_nil_iff in Hnone. rewrite Hnone. cbn [bind].
    unfold head. now destruct (0 <=? max_projects cfg)%Z; rewrite firstn_nil.
Qed.

(** * Further properties of the method *)

(** ** De-duplication and grouping *)

Lemma drop_duplicates_from_fixed {A : Type} (eqb : A -> A -> bool)
  (eqb_spec : forall x y, eqb x y = true <-> x = y) (seen l : list A) :
  NoDup l -> (forall x, In x l -> ~ In x seen) ->
  drop_duplicates_from eqb seen l = l.
Proof.
  revert seen. induction l as [|x l IH]; intros seen Hnd Hseen; simpl;
    [reflexivity|].
  inversion Hnd as [|? ? Hx Hl]; subst.
  destruct (existsb (eqb x) seen) eqn:E.
  - apply (existsb_eqb_In eqb eqb_spec) in E.
    exfalso. apply (Hseen x); [now left|assumption].
  - f_equal. apply IH; [assumption|].
    intros y Hy [<-|Hin]; [contradiction|].
    apply (Hseen y); [now right|assumption].
Qed.

(** X1.  The (projectID, name) pairs handed to the grouping hold no pair
    twice, hold exactly the pairs that occur on a row, and are left as
    they are by a second [drop_duplicates]. *)
Theorem project_name_pairs_deduplicated :
  forall df_org : list org_row,
    NoDup (project_name_pairs df_org) /\
    (forall pid nm,
        In (pid, nm) (project_name_pairs df_org) <->
        exists r, In r df_org /\ projectID r = pid /\ name r = nm) /\
    drop_duplicates pair_eqb (project_name_pairs df_org)
    = project_name_pairs df_org.
Proof.
  intro df_org.
  assert (Hnd : NoDup (project_name_pairs df_org))
    by apply (drop_duplicates_NoDup pair_eqb pair_eqb_spec).
  split; [exact Hnd|]. split.
  - intros pid nm. unfold project_name_pairs.
    rewrite (drop_duplicates_In pair_eqb pair_eqb_spec), in_map_iff. split.
    + intros [r [E Hr]]. inversion E. now exists r.
    + intros [r [Hr [<- <-]]]. now exists r.
  - apply (drop_duplicates_from_fixed pair_eqb pair_eqb_spec); [exact Hnd|].
    intros x _ [].
Qed.

Lemma insert_key_sorted (k : Z) (l : list Z) :
  StronglySorted Z.lt l -> StronglySorted Z.lt (insert_key k l).
Proof.
  induction l as [|x l IH]; simpl; intro H.
  - constructor; constructor.
  - inversion H as [|? ? Hl Hx]; subst.
    destruct (k <? x)%Z eqn:E1.
    + apply Z.ltb_lt in E1. constructor; [assumption|].
      constructor; [assumption|].
      eapply Forall_impl; [|exact Hx]. intros y Hy. lia.
    + destruct (k =? x)%Z eqn:E2; [assumption|].
      apply Z.ltb_ge in E1. apply Z.eqb_neq in E2.
      constructor; [now apply IH|].
      apply Forall_forall. intros y Hy. apply insert_key_In in Hy.
      destruct Hy as [->|Hy]; [lia|].
      rewrite Forall_forall in Hx. now apply Hx.
Qed.

Lemma group_keys_sorted (ids : list Z) : StronglySorted Z.lt (group_keys ids).
Proof.
  unfold group_keys. induction ids as [|k ids IH]; simpl.
  - constructor.
  - now apply insert_key_sorted.
Qed.

Lemma groupby_names_keys (pairs : list (Z * string)) :
  map fst (groupby_names pairs) = group_keys (map fst pairs).
Proof.
  unfold groupby_names. rewrite map_map. simpl. apply map_id.
Qed.

(** X2.  The grouped frame has one row per project, in ascending order
    of projectID; a project's list holds exactly the names paired with
    it, is never empty, and every pair falls in the list of its
    project. *)
Theorem groupby_names_partition :
  forall pairs : list (Z * string),
    StronglySorted Z.lt (map fst (groupby_names pairs)) /\
    (forall pid names,
        In (pid, names) (groupby_names pairs) ->
        names <> [] /\ forall nm, In nm names <-> In (pid, nm) pairs) /\
    (forall pid nm,
        In (pid, nm) pairs ->
        exists names, In (pid, names) (groupby_names pairs) /\ In nm names).
Proof.
  intro pairs.
  assert (Hnames : forall pid nm,
             In nm (map snd (filter (fun p => Z.eqb (fst p) pid) pairs)) <->
             In (pid, nm) pairs).
  { intros pid nm. rewrite in_map_iff. split.
    - intros [[i s] [E H]]. simpl in E. subst s.
      apply filter_In in H. destruct H as [H Ei]. simpl in Ei.
      apply Z.eqb_eq in Ei. now subst.
    - intro H. exists (pid, nm). split; [reflexivity|].
      apply filter_In. split; [assumption|]. simpl. apply Z.eqb_refl. }
  split; [|split].
  - rewrite groupby_names_keys. apply group_keys_sorted.
  - intros pid names Hin.
    assert (Hk : In pid (map fst (groupby_names pairs))).
    { apply in_map_iff. now exists (pid, names). }
    rewrite groupby_names_keys, group_keys_In, in_map_iff in Hk.
    destruct Hk as [[i nm] [Ei Hp]]. simpl in Ei. subst i.
    apply groupby_names_In in Hin. subst names. split.
    + intro E. apply (proj2 (Hnames pid nm)) in Hp. rewrite E in Hp.
      destruct Hp.
    + intro nm'. apply Hnames.
  - intros pid nm Hp.
    exists (map snd (filter (fun p => Z.eqb (fst p) pid) pairs)). split.
    + unfold groupby_names. apply in_map_iff. exists pid. split; [reflexivity|].
      apply group_keys_In, in_map_iff. now exists (pid, nm).
    + now apply Hnames.
Qed.

(** ** The participant mask and the cap *)

Lemma head_prefix {A : Type} (n : Z) (l : list A) :
  exists m, head n l = firstn m l /\
            ((0 <= n)%Z -> m = Z.to_nat n) /\
            ((n < 0)%Z -> m = (List.length l - Z.to_nat (- n))%nat).
Proof.
  unfold head. destruct (0 <=? n)%Z eqn:E.
  - exists (Z.to_nat n). apply Z.leb_le in E. repeat split. lia.
  - exists (List.length l - Z.to_nat (- n))%nat. apply Z.leb_gt in E.
    repeat split. lia.
Qed.

Lemma StronglySorted_map_filter {A : Type} (f : A -> Z) (p : A -> bool)
  (l : list A) :
  StronglySorted Z.lt (map f l) -> StronglySorted Z.lt (map f (filter p l)).
Proof.
  induction l as [|x l IH]; simpl; intro H; [constructor|].
  inversion H as [|? ? Hl Hx]; subst.
  destruct (p x); simpl; [|now apply IH].
  constructor; [now apply IH|].
  rewrite Forall_forall in *. intros y Hy. apply Hx.
  apply in_map_iff in Hy. destruct Hy as [z [<- Hz]].
  apply in_map. now apply filter_In in Hz.
Qed.

Lemma StronglySorted_app_lt {A : Type} (f : A -> Z) (l1 l2 : list A) :
  StronglySorted Z.lt (map f (l1 ++ l2)) ->
  StronglySorted Z.lt (map f l1) /\
  forall a b, In a l1 -> In b l2 -> (f a < f b)%Z.
Proof.
  induction l1 as [|x l1 IH]; simpl; intro H.
  - split; [constructor|]. intros a b [].
  - inversion H as [|? ? Hl Hx]; subst. destruct (IH Hl) as [Hs Hlt].
    rewrite Forall_forall in Hx. split.
    + constructor; [assumption|]. apply Forall_forall. intros y Hy.
      apply Hx. rewrite map_app. apply in_or_app. now left.
    + intros a b [<-|Ha] Hb.
      * apply Hx. apply in_map. apply in_or_app. now right.
      * now apply Hlt.
Qed.

(** X3.  Every project the edge loop runs over lists at least
    [min_participants] names; and when the projects that do are no more
    than [max_projects], the edge loop runs over all of them. *)
Theorem retained_have_enough_participants :
  forall (py : library) (cfg : config) (t : tables)
         (st : frames) (kept : list (Z * list string)),
    filter_engine py cfg t = Ok st ->
    retained_projects py cfg t = Ok kept ->
    (forall pid names,
        In (pid, names) kept ->
        (min_participants cfg <= Z.of_nat (List.length names))%Z) /\
    ((Z.of_nat (List.length
                  (filter (enough_participants (min_participants cfg))
                          (groupby_names (project_name_pairs (snd st)))))
      <= max_projects cfg)%Z ->
     forall pid names,
       In (pid, names) (groupby_names (project_name_pairs (snd st))) ->
       (min_participants cfg <= Z.of_nat (List.length names))%Z ->
       In (pid, names) kept).
Proof.
  intros py cfg t st kept Hst Hkept.
  destruct (retained_projects_groups _ _ _ _ Hkept) as [st' [Hst' [_ Ek]]].
  rewrite Hst in Hst'. injection Hst' as <-. split.
  - intros pid names Hin. subst kept. apply head_incl, filter_In in Hin.
    destruct Hin as [_ H]. unfold enough_participants in H. simpl in H.
    now apply Z.leb_le.
  - intros Hcap pid names Hin Hlen. subst kept.
    rewrite head_nonneg by lia. rewrite firstn_all2 by lia.
    apply filter_In. split; [assumption|].
    unfold enough_participants. simpl. now apply Z.leb_le.
Qed.

Lemma retained_have_enough_participants_witness :
  (2 <= Z.of_nat (List.length ["Inst A"; "Inst B"]))%Z /\
  In (1%Z, ["Inst A"; "Inst B"; "Inst C"])
     [(1%Z, ["Inst A"; "Inst B"; "Inst C"]); (2%Z, ["Inst A"; "Inst B"])].
Proof.
  destruct (retained_have_enough_participants plain default_config
              scenario (project_df scenario, organization_df scenario)
              [(1%Z, ["Inst A"; "Inst B"; "Inst C"]);
               (2%Z, ["Inst A"; "Inst B"])] eq_refl eq_refl)
    as [Hmin Hall].
  split.
  - apply (Hmin 2%Z). simpl. right. left. reflexivity.
  - apply Hall.
    + vm_compute. discriminate.
    + vm_compute. left. reflexivity.
    + vm_compute. discriminate.
Defined.

(** X4.  The cap keeps a prefix of the qualifying projects in ascending
    projectID: with [max_projects >= 0] the edge loop runs over the
    smaller of [max_projects] and their number, with a negative
    [max_projects] over all but the last [-max_projects]; the kept
    projectIDs ascend, and every qualifying project that is cut has a
    larger projectID than every project that is kept. *)
Theorem max_projects_keeps_lowest_ids :
  forall (py : library) (cfg : config) (t : tables)
         (st : frames) (kept : list (Z * list string)),
    filter_engine py cfg t = Ok st ->
    retained_projects py cfg t = Ok kept ->
    let survivors :=
      filter (enough_participants (min_participants cfg))
             (groupby_names (project_name_pairs (snd st))) in
    ((0 <= max_projects cfg)%Z ->
     List.length kept
     = Nat.min (Z.to_nat (max_projects cfg)) (List.length survivors)) /\
    ((max_projects cfg < 0)%Z ->
     List.length kept
     = (List.length survivors - Z.to_nat (- max_projects cfg))%nat) /\
    StronglySorted Z.lt (map fst kept) /\
    exists cut,
      survivors = kept ++ cut /\
      forall g g', In g kept -> In g' cut -> (fst g < fst g')%Z.
Proof.
  intros py cfg t st kept Hst Hkept survivors.
  destruct (retained_projects_groups _ _ _ _ Hkept) as [st' [Hst' [_ Ek]]].
  rewrite Hst in Hst'. injection Hst' as <-. fold survivors in Ek.
  destruct (head_prefix (max_projects cfg) survivors) as [m [Em [Hpos Hneg]]].
  rewrite Em in Ek.
  assert (Hsorted : StronglySorted Z.lt (map fst survivors)).
  { apply StronglySorted_map_filter. rewrite groupby_names_keys.
    apply group_keys_sorted. }
  assert (Hsplit : survivors = kept ++ skipn m survivors).
  { subst kept. symmetry. apply firstn_skipn. }
  rewrite Hsplit in Hsorted. apply StronglySorted_app_lt in Hsorted.
  destruct Hsorted as [Hk Hlt]. repeat split.
  - intro H. subst kept. rewrite length_firstn. now rewrite (Hpos H).
  - intro H. subst kept. rewrite length_firstn, (Hneg H). lia.
  - exact Hk.
  - exists (skipn m survivors). split; assumption.
Qed.

Lemma max_projects_keeps_lowest_ids_witness :
  List.length [(1%Z, ["Inst A"; "Inst B"; "Inst C"])] = 1%nat /\
  StronglySorted Z.lt (map fst [(1%Z, ["Inst A"; "Inst B"; "Inst C"])]).
Proof.
  destruct (max_projects_keeps_lowest_ids plain
              (with_limits default_config 1 2) scenario
              (project_df scenario, organization_df scenario)
              [(1%Z, ["Inst A"; "Inst B"; "Inst C"])] eq_refl eq_refl)
    as [Hlen [_ [Hsorted _]]].
  split; [|exact Hsorted]. apply Hlen. simpl. lia.
Defined.

(** ** When the call completes *)






(** ** The engine as a selection *)

Lemma in_project_exists (q : project_row -> bool) (P : list project_row)
  (r : org_row) :
  in_project q P r = true <->
  exists p, In p P /\ q p = true /\ p_projectID p = projectID r.
Proof.
  unfold in_project. rewrite existsb_exists. split.
  - intros [p [Hp H]]. apply andb_true_iff in H. destruct H as [Hq He].
    apply Z.eqb_eq in He. now exists p.
  - intros [p [Hp [Hq He]]]. exists p. split; [assumption|].
    rewrite Hq, He. apply Z.eqb_refl.
Qed.


(** X6.  With a field filter or a project type given, every organization
    row the engine keeps belongs to a project the engine keeps; the kept
    projects and rows are projects and rows of the input tables. *)
Theorem kept_rows_reference_kept_projects :
  forall (py : library) (cfg : config) (t : tables)
         (st : frames),
    filter_engine py cfg t = Ok st ->
    (forall p, In p (fst st) -> In p (project_df t)) /\
    (forall r, In r (snd st) -> In r (organization_df t)) /\
    (truthy_str (field_filter cfg) = true \/
     truthy_list (project_type cfg) = true ->
     forall r, In r (snd st) ->
               exists p, In p (fst st) /\ p_projectID p = projectID r).
Proof.
  intros py cfg t st Hst.
  destruct (engine_frames _ _ _ _ Hst) as [types [_ [_ ->]]]. cbn [fst snd].
  split; [|split].
  - intros p Hp. now apply filter_In in Hp.
  - intros r Hr. now apply filter_In in Hr.
  - intros Hactive r Hr. apply filter_In in Hr. destruct Hr as [_ Hr].
    unfold org_matches in Hr. rewrite !andb_true_iff in Hr.
    destruct Hr as [[[[[Hr _] _] _] _] _].
    unfold in_matching_project in Hr. apply orb_true_iff in Hr.
    destruct Hr as [Hr|Hr].
    + apply andb_true_iff in Hr. destruct Hr as [H1 H2].
      apply negb_true_iff in H1, H2. destruct Hactive; congruence.
    + apply in_project_exists in Hr. destruct Hr as [p [Hp [Hq He]]].
      exists p. split; [|assumption]. apply filter_In. now split.
Qed.

Lemma kept_rows_reference_kept_projects_witness :
  exists p, In p [proj 1; proj 2] /\ p_projectID p = projectID (org 2 "Inst B").
Proof.
  destruct (kept_rows_reference_kept_projects plain
              (with_project_type default_config (Some ["RIA"])) scenario
              (project_df scenario, organization_df scenario) eq_refl)
    as [_ [_ Href]].
  apply Href.
  - right. reflexivity.
  - simpl. right. right. right. right. left. reflexivity.
Defined.

Lemma contribution_matches_coercible (py : library)
  (cfg : config) (r : org_row) :
  truthy_num (contribution_min cfg) = true ->
  contribution_matches py cfg r = true ->
  coercible py r = true.
Proof.
  unfold contribution_matches, coercible, contribution_value. intro Ht.
  destruct (contribution_min cfg) as [th|]; [|discriminate].
  rewrite Ht.
  destruct (astype_float py (contribution r)); [reflexivity|].
  discriminate.
Qed.

Lemma loop_raises_fixed (calls : list string) (P : list project_row) :
  P <> [] ->
  (forall p, In p P ->
             forallb (fun call => str_in_cell call (fundingScheme p)) calls
             = true) ->
  loop_raises calls P = false.
Proof.
  induction calls as [|c calls IH]; intros Hne Hall; [reflexivity|].
  cbn [loop_raises].
  rewrite (filter_all_true (fun p => str_in_cell c (fundingScheme p)) P).
  - destruct P as [|p P]; [contradiction|]. cbn [is_nil orb].
    apply IH; [discriminate|]. intros p' Hp. specialize (Hall p' Hp).
    cbn [forallb] in Hall. apply andb_true_iff in Hall. tauto.
  - intros p Hp. specialize (Hall p Hp).
    cbn [forallb] in Hall. apply andb_true_iff in Hall. tauto.
Qed.

(** X7.  The engine run again on the two frames it returned.  When the
    returned project frame holds a row, or neither [field_filter] nor
    [project_type] is given, the second run completes and returns the
    frames unchanged.  When the returned project frame is empty and one
    of the two is given, the second run raises KeyError: the block builds
    its mask on the empty frame. *)
Theorem filter_engine_idempotent :
  forall (py : library) (cfg : config) (t : tables)
         (st : frames),
    filter_engine py cfg t = Ok st ->
    (fst st <> [] \/
     (truthy_str (field_filter cfg) = false /\
      truthy_list (project_type cfg) = false) ->
     filter_engine py cfg
       {| project_df := fst st; organization_df := snd st |} = Ok st) /\
    (fst st = [] ->
     truthy_str (field_filter cfg) = true \/
     truthy_list (project_type cfg) = true ->
     filter_engine py cfg
       {| project_df := fst st; organization_df := snd st |}
     = Raise KeyError).
Proof.
  intros py cfg t st Hst.
  destruct (engine_frames _ _ _ _ Hst) as [types [Hres [Herr ->]]].
  cbn [fst snd].
  set (P := project_df t) in *. set (O := organization_df t) in *.
  unfold engine_error in Herr.
  destruct (field_raises cfg (project_df t)); [discriminate|].
  destruct (text_raises py cfg) eqn:Et; [discriminate|]. clear Herr.
  rewrite filter_engine_spec, Hres. cbn [bind project_df organization_df].
  unfold engine_error. cbn [project_df organization_df]. rewrite Et.
  assert (Hom : forall r,
             org_matches py cfg types (filter (project_matches cfg) P) r
             = org_matches py cfg types P r).
  { intro r. unfold org_matches, in_matching_project.
    rewrite in_project_filter. do 6 f_equal.
    unfold in_project. apply existsb_ext. intro p.
    now destruct (project_matches cfg p). }
  assert (Hr : contribution_raises py cfg
                 (filter (early_matches py cfg types
                            (filter (project_matches cfg) P))
                    (filter (org_matches py cfg types P) O))
               = false).
  { unfold contribution_raises.
    destruct (truthy_num (contribution_min cfg)) eqn:Ec; [|reflexivity].
    cbn [andb]. apply negb_false_iff, forallb_forall. intros r Hin.
    apply filter_In in Hin. destruct Hin as [Hin _].
    apply filter_In in Hin. destruct Hin as [_ Hin].
    unfold org_matches in Hin. apply andb_true_iff in Hin.
    destruct Hin as [_ Hin].
    now apply (contribution_matches_coercible py cfg). }
  assert (Hfix : filter (field_matches cfg) (filter (project_matches cfg) P)
                 = filter (project_matches cfg) P).
  { apply filter_all_true. intros p Hp. apply filter_In in Hp.
    destruct Hp as [_ Hp]. unfold project_matches in Hp.
    apply andb_true_iff in Hp. tauto. }
  rewrite Hr. unfold project_type_raises, field_raises. rewrite Hfix. split.
  - intro Hcase.
    assert (Hf : truthy_str (field_filter cfg)
                 && is_nil (filter (project_matches cfg) P) = false).
    { destruct Hcase as [Hne|[-> _]]; [|reflexivity].
      destruct (filter (project_matches cfg) P); [contradiction|].
      apply andb_false_r. }
    assert (Hl : loop_raises (arg_list (project_type cfg))
                   (filter (project_matches cfg) P) = false).
    { destruct Hcase as [Hne|[_ Hp]].
      - apply loop_raises_fixed; [assumption|]. intros p Hp.
        apply filter_In in Hp. destruct Hp as [_ Hp].
        unfold project_matches in Hp. apply andb_true_iff in Hp.
        destruct Hp as [_ Hp]. exact Hp.
      - now destruct (project_type cfg) as [[|c cs]|]. }
    rewrite Hf, Hl. apply f_equal. apply f_equal2.
    + apply filter_absorb. auto.
    + rewrite (filter_ext _ _ Hom). apply filter_absorb. auto.
  - intros -> Hcase. cbn [is_nil].
    destruct (truthy_str (field_filter cfg)); [reflexivity|]. cbn [andb].
    destruct Hcase as [Hcase|Hcase]; [discriminate|].
    now destruct (project_type cfg) as [[|c cs]|].
Qed.

Lemma filter_engine_idempotent_witness :
  filter_engine plain
    (with_contribution default_config (Some (inject_Z 500)))
    {| project_df := [proj 1]; organization_df := [org 1 "Inst A"] |}
  = Ok ([proj 1], [org 1 "Inst A"]) /\
  filter_engine plain (with_project_type default_config (Some ["ERC"]))
    {| project_df := []; organization_df := [] |}
  = Raise KeyError.
Proof.
  split.
  - apply (proj1 (filter_engine_idempotent plain
                    (with_contribution default_config (Some (inject_Z 500)))
                    other_partners ([proj 1], [org 1 "Inst A"]) eq_refl)).
    left. discriminate.
  - apply (proj2 (filter_engine_idempotent plain
                    (with_project_type default_config (Some ["ERC"]))
                    scenario ([], []) eq_refl)); [reflexivity|].
    right. reflexivity.
Defined.

(** ** Repeated rows *)

Lemma drop_duplicates_from_repeat {A : Type} (eqb : A -> A -> bool)
  (eqb_spec : forall x y, eqb x y = true <-> x = y)
  (seen l1 l2 : list A) (x : A) :
  In x l1 \/ In x seen ->
  drop_duplicates_from eqb seen (l1 ++ x :: l2)
  = drop_duplicates_from eqb seen (l1 ++ l2).
Proof.
  revert seen. induction l1 as [|y l1 IH]; intros seen Hx; simpl.
  - destruct Hx as [[]|Hx].
    now rewrite (proj2 (existsb_eqb_In eqb eqb_spec x seen) Hx).
  - destruct (existsb (eqb y) seen) eqn:E.
    + apply IH. destruct Hx as [[<-|Hx]|Hx]; auto.
      right. now apply (existsb_eqb_In eqb eqb_spec) in E.
    + f_equal. apply IH. destruct Hx as [[<-|Hx]|Hx]; simpl; auto.
Qed.

Lemma forallb_filter_repeat {A : Type} (c q : A -> bool) (l1 l2 : list A)
  (x : A) :
  In x l1 ->
  forallb c (filter q (l1 ++ x :: l2)) = forallb c (filter q (l1 ++ l2)).
Proof.
  intro Hx. rewrite !filter_app, !forallb_app. simpl.
  destruct (q x) eqn:Eq; [|reflexivity]. simpl.
  destruct (c x) eqn:Ec; [reflexivity|].
  assert (H : forallb c (filter q l1) = false).
  { apply not_true_is_false. intro H. rewrite forallb_forall in H.
    rewrite (H x) in Ec; [discriminate|]. apply filter_In. now split. }
  now rewrite H.
Qed.

Lemma project_name_pairs_repeat (q : org_row -> bool) (O1 O2 : list org_row)
  (r : org_row) :
  In r O1 ->
  project_name_pairs (filter q (O1 ++ r :: O2))
  = project_name_pairs (filter q (O1 ++ O2)).
Proof.
  intro Hr. rewrite !filter_app. simpl. destruct (q r) eqn:Eq; [|reflexivity].
  unfold project_name_pairs, drop_duplicates. rewrite !map_app. simpl.
  apply (drop_duplicates_from_repeat pair_eqb pair_eqb_spec). left.
  apply in_map_iff. exists r. split; [reflexivity|]. apply filter_In. now split.
Qed.

(** X8.  A row of the organization table that occurs a second time
    further down changes nothing: the call has the same outcome, error or
    figure, as on the table without the second occurrence. *)
Theorem repeated_row_changes_nothing :
  forall (py : library) (cfg : config)
         (P : list project_row) (O1 O2 : list org_row) (r : org_row),
    In r O1 ->
    plot_collaboration_network py cfg
      {| project_df := P; organization_df := O1 ++ r :: O2 |}
    = plot_collaboration_network py cfg
        {| project_df := P; organization_df := O1 ++ O2 |}.
Proof.
  intros py cfg P O1 O2 r Hr.
  unfold plot_collaboration_network. f_equal.
  unfold retained_projects. rewrite !filter_engine_spec.
  destruct (resolve_org_types (org_types cfg)) as [types|e]; [|reflexivity].
  cbn [bind]. unfold engine_error, contribution_raises.
  cbn [project_df organization_df].
  rewrite (forallb_filter_repeat _ _ O1 O2 r Hr).
  destruct (field_raises cfg P); [reflexivity|].
  destruct (text_raises py cfg); [reflexivity|].
  destruct (truthy_num (contribution_min cfg) && _); [reflexivity|].
  destruct (project_type_raises cfg P); [reflexivity|].
  cbn [bind snd]. now rewrite (project_name_pairs_repeat _ O1 O2 r Hr).
Qed.

Lemma repeated_row_changes_nothing_witness :
  plot_collaboration_network plain default_config
    {| project_df := [proj 1];
       organization_df := [org 1 "Inst A"] ++ org 1 "Inst A" :: [org 1 "Inst B"] |}
  = plot_collaboration_network plain default_config
      {| project_df := [proj 1];
         organization_df := [org 1 "Inst A"] ++ [org 1 "Inst B"] |}.
Proof.
  apply repeated_row_changes_nothing. left. reflexivity.
Defined.

(** ** The counter of ordered pairs *)

Section CounterMultiset.
Context {K : Type} (eqb : K -> K -> bool).
Hypothesis eqb_spec : forall x y, eqb x y = true <-> x = y.

Lemma counter_add_key_list (k : K) (c : list (K * nat)) :
  map fst (counter_add eqb k c)
  = if existsb (eqb k) (map fst c) then map fst c else map fst c ++ [k].
Proof.
  induction c as [|[k' n] c IH]; simpl; [reflexivity|].
  destruct (eqb k k') eqn:E; simpl; [reflexivity|].
  rewrite IH. now destruct (existsb (eqb k) (map fst c)).
Qed.

Lemma counter_add_keys_NoDup (k : K) (c : list (K * nat)) :
  NoDup (map fst c) -> NoDup (map fst (counter_add eqb k c)).
Proof.
  intro H. rewrite counter_add_key_list.
  destruct (existsb (eqb k) (map fst c)) eqn:E; [assumption|].
  apply NoDup_app; [assumption|repeat constructor; intros []|].
  intros x Hx [<-|[]].
  apply (existsb_eqb_In eqb eqb_spec) in Hx. congruence.
Qed.

Lemma counter_add_keys_In (k x : K) (c : list (K * nat)) :
  In x (map fst (counter_add eqb k c)) <-> x = k \/ In x (map fst c).
Proof.
  rewrite counter_add_key_list.
  destruct (existsb (eqb k) (map fst c)) eqn:E.
  - apply (existsb_eqb_In eqb eqb_spec) in E. split; [tauto|].
    intros [->|H]; assumption.
  - rewrite in_app_iff. simpl. split; [intros [H|[<-|[]]]; tauto|].
    intros [->|H]; tauto.
Qed.

Lemma counter_add_total (k : K) (c : list (K * nat)) :
  list_sum (map snd (counter_add eqb k c)) = S (list_sum (map snd c)).
Proof.
  induction c as [|[k' n] c IH]; simpl; [reflexivity|].
  destruct (eqb k k'); simpl; [reflexivity|]. rewrite IH. lia.
Qed.

Lemma counter_fold_facts (l : list K) (c : list (K * nat)) :
  NoDup (map fst c) ->
  NoDup (map fst (fold_left (fun c k => counter_add eqb k c) l c)) /\
  (forall x, In x (map fst (fold_left (fun c k => counter_add eqb k c) l c))
             <-> In x l \/ In x (map fst c)) /\
  list_sum (map snd (fold_left (fun c k => counter_add eqb k c) l c))
  = (List.length l + list_sum (map snd c))%nat.
Proof.
  revert c. induction l as [|k l IH]; intros c Hc; simpl.
  - repeat split; tauto.
  - destruct (IH (counter_add eqb k c) (counter_add_keys_NoDup k c Hc))
      as [Hnd [Hin Hsum]].
    split; [exact Hnd|]. split.
    + intro x. rewrite Hin, counter_add_keys_In. split.
      * intros [H|[->|H]]; tauto.
      * intros [[<-|H]|H]; tauto.
    + rewrite Hsum, counter_add_total. lia.
Qed.

Lemma counter_get_of_entry (c : list (K * nat)) (k : K) (n : nat) :
  NoDup (map fst c) -> In (k, n) c -> counter_get eqb c k = Some n.
Proof.
  induction c as [|[k' m] c IH]; simpl; intros Hnd Hin; [destruct Hin|].
  inversion Hnd as [|? ? Hk Hc]; subst.
  destruct Hin as [E|Hin].
  - inversion E; subst. now rewrite (eqb_refl eqb eqb_spec).
  - destruct (eqb k k') eqn:E.
    + apply eqb_spec in E. subst k'. exfalso. apply Hk.
      apply in_map_iff. now exists (k, n).
    + now apply IH.
Qed.

Lemma occurrences_positive (k : K) (l : list K) :
  (1 <= occurrences eqb k l)%nat <-> In k l.
Proof.
  unfold occurrences. split.
  - intro H. destruct (filter (eqb k) l) as [|x xs] eqn:E; [simpl in H; lia|].
    assert (Hx : In x (filter (eqb k) l)) by (rewrite E; now left).
    apply filter_In in Hx. destruct Hx as [Hx Ek]. apply eqb_spec in Ek.
    now subst.
  - intro H. assert (Hk : In k (filter (eqb k) l)).
    { apply filter_In. split; [assumption|]. now apply eqb_spec. }
    destruct (filter (eqb k) l); [destruct Hk|simpl; lia].
Qed.

Lemma Counter_entries (l : list K) (k : K) (n : nat) :
  In (k, n) (Counter eqb l) <->
  n = occurrences eqb k l /\ (1 <= n)%nat.
Proof.
  destruct (counter_fold_facts l [] (NoDup_nil K)) as [Hnd [Hin _]].
  fold (Counter eqb l) in Hnd, Hin. split.
  - intro H. split; [|exact (Counter_positive eqb l k n H)].
    apply (counter_get_of_entry _ _ _ Hnd) in H.
    rewrite <- (Counter_count eqb eqb_spec). unfold count_of. now rewrite H.
  - intros [-> Hpos]. apply occurrences_positive in Hpos.
    assert (Hk : In k (map fst (Counter eqb l))) by (apply Hin; now left).
    apply in_map_iff in Hk. destruct Hk as [[k' m] [E Hk]]. simpl in E.
    subst k'. pose proof Hk as Hm.
    apply (counter_get_of_entry _ _ _ Hnd) in Hm.
    pose proof (Counter_count eqb eqb_spec l k) as Hc.
    unfold count_of in Hc. rewrite Hm in Hc. now subst m.
Qed.
End CounterMultiset.

(** X9.  The counter of the edge loop is the multiset of the ordered
    pairs it was fed: each ordered pair is one key, its count is the
    number of retained projects that list the first name before the
    second, never 0, and the counts add up to the number of edge
    instances, the sum of [k * (k - 1) / 2] over the projects. *)
Theorem edge_counter_is_multiset :
  forall collab_df : list (Z * list string),
    NoDup (map fst (Counter edge_eqb (edge_list collab_df))) /\
    (forall u v n,
        In (u, v, n) (Counter edge_eqb (edge_list collab_df)) <->
        n = occurrences edge_eqb (u, v) (edge_list collab_df) /\ (1 <= n)%nat) /\
    list_sum (map snd (Counter edge_eqb (edge_list collab_df)))
    = list_sum (map (fun g => (List.length (snd g)
                               * (List.length (snd g) - 1) / 2)%nat)
                    collab_df).
Proof.
  intro collab_df.
  destruct (counter_fold_facts edge_eqb edge_eqb_spec (edge_list collab_df) []
              (NoDup_nil _)) as [Hnd [_ Hsum]].
  fold (Counter edge_eqb (edge_list collab_df)) in Hnd, Hsum.
  split; [exact Hnd|]. split.
  - intros u v n. apply (Counter_entries edge_eqb edge_eqb_spec).
  - rewrite Hsum. simpl. rewrite Nat.add_0_r. apply edge_list_length.
Qed.

Lemma edge_counter_is_multiset_witness :
  2%nat = occurrences edge_eqb ("Inst A", "Inst B")
            (edge_list [(1%Z, ["Inst A"; "Inst B"; "Inst C"]);
                        (2%Z, ["Inst A"; "Inst B"])]) /\
  (1 <= 2)%nat.
Proof.
  apply (proj1 (proj2 (edge_counter_is_multiset
                         [(1%Z, ["Inst A"; "Inst B"; "Inst C"]);
                          (2%Z, ["Inst A"; "Inst B"])]))).
  vm_compute. left. reflexivity.
Defined.

(** ** The graph *)

Lemma same_edge_iff (u v a b : string) :
  same_edge u v a b = true <-> (u = a /\ v = b) \/ (u = b /\ v = a).
Proof.
  unfold same_edge. now rewrite orb_true_iff, !andb_true_iff, !String.eqb_eq.
Qed.

Lemma same_edge_refl (u v : string) : same_edge u v u v = true.
Proof. apply same_edge_iff. now left. Qed.

Lemma same_edge_sym (u v a b : string) : same_edge u v a b = same_edge a b u v.
Proof.
  apply eq_true_iff_eq. rewrite !same_edge_iff. intuition (subst; auto).
Qed.

Lemma same_edge_swap (u v a b : string) : same_edge u v a b = same_edge v u a b.
Proof.
  apply eq_true_iff_eq. rewrite !same_edge_iff. intuition (subst; auto).
Qed.

Lemma same_edge_congr (a b u v x y : string) :
  same_edge a b u v = true -> same_edge a b x y = same_edge u v x y.
Proof.
  intro H. apply same_edge_iff in H. apply eq_true_iff_eq.
  rewrite !same_edge_iff. intuition (subst; auto).
Qed.

Lemma edge_weight_in_congr (es : list (string * string * nat))
  (a b u v : string) :
  same_edge a b u v = true -> edge_weight_in es a b = edge_weight_in es u v.
Proof.
  intro H. induction es as [|[[x y] w] es IH]; simpl; [reflexivity|].
  now rewrite (same_edge_congr a b u v x y H), IH.
Qed.

Lemma edge_weight_in_swap (es : list (string * string * nat)) (u v : string) :
  edge_weight_in es u v = edge_weight_in es v u.
Proof.
  apply edge_weight_in_congr. rewrite same_edge_swap. apply same_edge_refl.
Qed.

Lemma set_weight_In (u v : string) (w0 : nat)
  (es : list (string * string * nat)) (a b : string) (w : nat) :
  In (a, b, w) (set_weight u v w0 es) ->
  In (a, b, w) es \/
  (w = w0 /\ same_edge u v a b = true /\
   ((a = u /\ b = v) \/ exists w', In (a, b, w') es)).
Proof.
  induction es as [|[[x y] w'] es IH]; simpl.
  - intros [E|[]]. inversion E; subst. right.
    split; [reflexivity|]. split; [apply same_edge_refl|now left].
  - destruct (same_edge u v x y) eqn:Es.
    + intros [E|H]; [|left; now right]. inversion E; subst. right.
      split; [reflexivity|]. split; [assumption|]. right. exists w'. now left.
    + intros [E|H]; [left; now left|].
      destruct (IH H) as [H'|[-> [Hs [Hp|[w'' Hp]]]]].
      * left. now right.
      * right. split; [reflexivity|]. split; [assumption|now left].
      * right. split; [reflexivity|]. split; [assumption|].
        right. exists w''. now right.
Qed.

Lemma set_weight_keeps (u v : string) (w0 : nat)
  (es : list (string * string * nat)) (a b : string) (w : nat) :
  In (a, b, w) es -> exists w', In (a, b, w') (set_weight u v w0 es).
Proof.
  induction es as [|[[x y] w'] es IH]; simpl; [intros []|].
  destruct (same_edge u v x y).
  - intros [E|H].
    + inversion E; subst. exists w0. now left.
    + exists w. now right.
  - intros [E|H].
    + exists w. now left.
    + destruct (IH H) as [w'' H']. exists w''. now right.
Qed.

Lemma set_weight_has (u v : string) (w0 : nat)
  (es : list (string * string * nat)) :
  edge_weight_in (set_weight u v w0 es) u v = Some w0.
Proof.
  induction es as [|[[x y] w'] es IH]; simpl.
  - now rewrite same_edge_refl.
  - destruct (same_edge u v x y) eqn:Es; simpl; now rewrite Es.
Qed.

Lemma set_weight_others (u v : string) (w0 : nat)
  (es : list (string * string * nat)) (a b : string) :
  same_edge a b u v = false ->
  edge_weight_in (set_weight u v w0 es) a b = edge_weight_in es a b.
Proof.
  intro Hab. induction es as [|[[x y] w'] es IH]; simpl.
  - now rewrite Hab.
  - destruct (same_edge u v x y) eqn:Es; simpl.
    + destruct (same_edge a b x y) eqn:Ea; [|reflexivity].
      rewrite (same_edge_congr a b x y u v Ea), same_edge_sym in Hab.
      congruence.
    + now rewrite IH.
Qed.

Lemma set_weight_distinct (u v : string) (w0 : nat)
  (es : list (string * string * nat)) :
  distinct_edges es -> distinct_edges (set_weight u v w0 es).
Proof.
  induction es as [|[[x y] w'] es IH]; simpl.
  - intros _. split; [intros a b w []|exact I].
  - intros [Hhead Htail]. destruct (same_edge u v x y) eqn:Es; simpl.
    + split; assumption.
    + split; [|now apply IH].
      intros a b w Hin. apply set_weight_In in Hin.
      destruct Hin as [Hin|[_ [Hs [[-> ->]|[w'' Hin]]]]].
      * now apply (Hhead a b w).
      * now rewrite same_edge_sym.
      * now apply (Hhead a b w'').
Qed.

Lemma distinct_edges_lookup (es : list (string * string * nat))
  (a b : string) (w : nat) :
  distinct_edges es -> In (a, b, w) es -> edge_weight_in es a b = Some w.
Proof.
  induction es as [|[[x y] w'] es IH]; simpl; [intros _ []|].
  intros [Hhead Htail] [E|Hin].
  - inversion E; subst. now rewrite same_edge_refl.
  - rewrite same_edge_sym, (Hhead a b w Hin). now apply IH.
Qed.

Lemma add_node_In (u x : string) (ns : list string) :
  In x (add_node u ns) <-> x = u \/ In x ns.
Proof.
  unfold add_node. destruct (existsb (String.eqb u) ns) eqn:E.
  - apply (existsb_eqb_In String.eqb String.eqb_eq) in E.
    split; [tauto|]. intros [->|H]; assumption.
  - rewrite in_app_iff. simpl. split; [intros [H|[<-|[]]]; tauto|].
    intros [->|H]; tauto.
Qed.

Lemma add_node_NoDup (u : string) (ns : list string) :
  NoDup ns -> NoDup (add_node u ns).
Proof.
  intro H. unfold add_node. destruct (existsb (String.eqb u) ns) eqn:E;
    [assumption|].
  apply NoDup_app; [assumption|repeat constructor; intros []|].
  intros x Hx [<-|[]].
  apply (existsb_eqb_In String.eqb String.eqb_eq) in Hx. congruence.
Qed.

Lemma add_edge_well_formed (u v : string) (w : nat) (G : Graph) :
  well_formed G -> well_formed (add_edge u v w G).
Proof.
  intros [Hnd [Hends [Hnodes Hdist]]]. unfold well_formed, add_edge.
  cbn [nodes edges]. repeat split.
  - now apply add_node_NoDup, add_node_NoDup.
  - apply set_weight_In in H.
    destruct H as [H|[_ [_ [[-> ->]|[w' H]]]]].
    + apply Hends in H. rewrite !add_node_In. tauto.
    + rewrite !add_node_In. tauto.
    + apply Hends in H. rewrite !add_node_In. tauto.
  - apply set_weight_In in H.
    destruct H as [H|[_ [_ [[-> ->]|[w' H]]]]].
    + apply Hends in H. rewrite !add_node_In. tauto.
    + rewrite !add_node_In. tauto.
    + apply Hends in H. rewrite !add_node_In. tauto.
  - intros x Hx. rewrite !add_node_In in Hx.
    destruct Hx as [->|[->|Hx]].
    + destruct (edge_weight_in_Some _ _ _ _ (set_weight_has u v w (edges G)))
        as [a [b [Hin Hs]]].
      exists a, b, w. split; [assumption|].
      apply same_edge_iff in Hs. tauto.
    + destruct (edge_weight_in_Some _ _ _ _ (set_weight_has u v w (edges G)))
        as [a [b [Hin Hs]]].
      exists a, b, w. split; [assumption|].
      apply same_edge_iff in Hs. tauto.
    + destruct (Hnodes x Hx) as [a [b [w' [Hin Hab]]]].
      destruct (set_weight_keeps u v w _ _ _ _ Hin) as [w'' Hin'].
      now exists a, b, w''.
  - now apply set_weight_distinct.
Qed.

Lemma build_graph_well_formed (counts : list (string * string * nat)) :
  well_formed (build_graph counts).
Proof.
  unfold build_graph.
  assert (H0 : well_formed empty_graph).
  { repeat split; simpl; try tauto. constructor. }
  revert H0. generalize empty_graph.
  induction counts as [|[[u v] n] counts IH]; simpl; intros G HG;
    [assumption|].
  apply IH. now apply add_edge_well_formed.
Qed.

(** X10.  The graph of a completed call is well formed: no node occurs
    twice, both ends of every edge are nodes, every node is an end of
    some edge (no isolated nodes), no two edges join the same two names;
    every edge is found with its weight from either end. *)
Theorem graph_well_formed :
  forall (py : library) (cfg : config) (t : tables)
         (fig : Figure),
    plot_collaboration_network py cfg t = Ok fig ->
    well_formed (graph fig) /\
    (forall a b w, In (a, b, w) (edges (graph fig)) ->
                   edge_weight (graph fig) a b = Some w /\
                   edge_weight (graph fig) b a = Some w) /\
    (forall u v, edge_weight (graph fig) u v = edge_weight (graph fig) v u).
Proof.
  intros py cfg t fig Hplot.
  destruct (plot_retained _ _ _ _ Hplot) as [kept [_ ->]].
  pose proof (build_graph_well_formed (Counter edge_eqb (edge_list kept))) as Hwf.
  split; [exact Hwf|]. split.
  - intros a b w Hin. destruct Hwf as [_ [_ [_ Hd]]]. unfold edge_weight.
    rewrite (edge_weight_in_swap _ b a).
    split; now apply distinct_edges_lookup.
  - intros u v. apply edge_weight_in_swap.
Qed.

Lemma graph_well_formed_witness :
  NoDup ["Inst A"; "Inst B"; "Inst C"] /\
  edge_weight_in [("Inst A", "Inst B", 2%nat); ("Inst A", "Inst C", 1%nat);
                  ("Inst B", "Inst C", 1%nat)] "Inst C" "Inst A" = Some 1%nat.
Proof.
  destruct (graph_well_formed plain default_config scenario
              {| graph :=
                   {| nodes := ["Inst A"; "Inst B"; "Inst C"];
                      edges := [("Inst A", "Inst B", 2%nat);
                                ("Inst A", "Inst C", 1%nat);
                                ("Inst B", "Inst C", 1%nat)] |};
                 title := "Institution Collaboration Network" |} eq_refl)
    as [[Hnd _] [Hlook _]].
  split; [exact Hnd|].
  apply (Hlook "Inst A" "Inst C" 1%nat). simpl. right. left. reflexivity.
Defined.

Lemma fold_add_edge_nodes (counts : list (string * string * nat)) (G : Graph)
  (x : string) :
  In x (nodes (fold_left
                 (fun G e => add_edge (fst (fst e)) (snd (fst e)) (snd e) G)
                 counts G)) <->
  In x (nodes G) \/ exists u v n, In (u, v, n) counts /\ (x = u \/ x = v).
Proof.
  revert G. induction counts as [|[[u v] n] counts IH]; intro G; simpl.
  - split; [tauto|]. intros [H|[u [v [n [[] _]]]]]. exact H.
  - rewrite IH. cbn [add_edge nodes]. rewrite !add_node_In. split.
    + intros [[->|[->|H]]|[a [b [m [Hin Hx]]]]].
      * right. exists u, v, n. split; [now left|now right].
      * right. exists u, v, n. split; [now left|now left].
      * now left.
      * right. exists a, b, m. split; [now right|assumption].
    + intros [H|[a [b [m [[E|Hin] Hx]]]]].
      * left. tauto.
      * inversion E; subst. left. tauto.
      * right. now exists a, b, m.
Qed.

Lemma combinations_member {A : Type} (l : list A) (x : A) :
  In x l /\ (2 <= List.length l)%nat <->
  exists y, In (x, y) (combinations l) \/ In (y, x) (combinations l).
Proof.
  split.
  - intros [Hx Hlen]. induction l as [|a l IH]; [destruct Hx|].
    destruct Hx as [->|Hx].
    + destruct l as [|b l]; [simpl in Hlen; lia|].
      exists b. left. simpl. now left.
    + exists a. right. simpl. apply in_or_app. left. now apply in_map.
  - intros [y [H|H]]; (split; [now apply combinations_In in H|]);
      destruct l as [|a [|b l]]; simpl in *; try tauto; lia.
Qed.

(** X11.  The nodes of the graph are the names listed by a retained
    project that lists at least two names: a retained project with a
    single participant adds no node.  With [min_participants >= 2] the
    nodes are all the names of the retained projects. *)
Theorem graph_nodes_are_collaborators :
  forall (py : library) (cfg : config) (t : tables)
         (fig : Figure) (kept : list (Z * list string)),
    plot_collaboration_network py cfg t = Ok fig ->
    retained_projects py cfg t = Ok kept ->
    (forall x,
        In x (nodes (graph fig)) <->
        exists pid names,
          In (pid, names) kept /\ In x names /\ (2 <= List.length names)%nat) /\
    ((2 <= min_participants cfg)%Z ->
     forall x,
       In x (nodes (graph fig)) <->
       exists pid names, In (pid, names) kept /\ In x names).
Proof.
  intros py cfg t fig kept Hplot Hkept.
  destruct (plot_retained _ _ _ _ Hplot) as [kept' [Hkept' Hg]].
  rewrite Hkept in Hkept'. injection Hkept' as <-.
  assert (Hnodes : forall x,
             In x (nodes (graph fig)) <->
             exists pid names,
               In (pid, names) kept /\ In x names /\
               (2 <= List.length names)%nat).
  { intro x. rewrite Hg. unfold build_graph. rewrite fold_add_edge_nodes.
    simpl. split.
    - intros [[]|[u [v [n [Hin Hx]]]]].
      apply (Counter_keys edge_eqb) in Hin. apply edge_list_In in Hin.
      destruct Hin as [pid [names [Hgin Hc]]]. exists pid, names.
      split; [assumption|]. apply combinations_member.
      destruct Hx as [-> | ->]; [exists v; now left|exists u; now right].
    - intros [pid [names [Hgin [Hx Hlen]]]]. right.
      destruct (proj1 (combinations_member names x) (conj Hx Hlen)) as [y Hy].
      assert (Hkey : forall a b, In (a, b) (combinations names) ->
                                 exists n, In (a, b, n)
                                             (Counter edge_eqb (edge_list kept))).
      { intros a b Hab.
        exists (occurrences edge_eqb (a, b) (edge_list kept)).
        apply (Counter_entries edge_eqb edge_eqb_spec).
        split; [reflexivity|].
        apply (occurrences_positive edge_eqb edge_eqb_spec).
        unfold edge_list. apply in_flat_map. now exists (pid, names). }
      destruct Hy as [Hy|Hy]; destruct (Hkey _ _ Hy) as [n Hn].
      + exists x, y, n. split; [assumption|now left].
      + exists y, x, n. split; [assumption|now right]. }
  split; [exact Hnodes|].
  intros Hmin x. rewrite Hnodes. split.
  - intros [pid [names [Hin [Hx _]]]]. now exists pid, names.
  - intros [pid [names [Hin Hx]]]. exists pid, names.
    split; [assumption|]. split; [assumption|].
    destruct (retained_projects_groups _ _ _ _ Hkept) as [st [_ [_ Ek]]].
    rewrite Ek in Hin. apply head_incl, filter_In in Hin.
    destruct Hin as [_ Hen]. unfold enough_participants in Hen. simpl in Hen.
    apply Z.leb_le in Hen. lia.
Qed.

Lemma graph_nodes_are_collaborators_witness :
  In "Inst C" ["Inst A"; "Inst B"; "Inst C"].
Proof.
  destruct (graph_nodes_are_collaborators plain default_config
              scenario
              {| graph :=
                   {| nodes := ["Inst A"; "Inst B"; "Inst C"];
                      edges := [("Inst A", "Inst B", 2%nat);
                                ("Inst A", "Inst C", 1%nat);
                                ("Inst B", "Inst C", 1%nat)] |};
                 title := "Institution Collaboration Network" |}
              [(1%Z, ["Inst A"; "Inst B"; "Inst C"]);
               (2%Z, ["Inst A"; "Inst B"])] eq_refl eq_refl)
    as [_ Hall].
  apply (Hall ltac:(simpl; lia) "Inst C").
  exists 1%Z, ["Inst A"; "Inst B"; "Inst C"]. split.
  - left. reflexivity.
  - right. right. left. reflexivity.
Defined.

(** ** Edge weights *)

Lemma set_weight_lookup (u v : string) (w0 : nat)
  (es : list (string * string * nat)) (a b : string) :
  edge_weight_in (set_weight u v w0 es) a b
  = if same_edge a b u v then Some w0 else edge_weight_in es a b.
Proof.
  destruct (same_edge a b u v) eqn:E.
  - rewrite (edge_weight_in_congr _ a b u v E). apply set_weight_has.
  - now apply set_weight_others.
Qed.

Lemma fold_add_edge_keeps (counts : list (string * string * nat)) (G : Graph)
  (a b : string) (w : nat) :
  edge_weight_in (edges G) a b = Some w ->
  exists w',
    edge_weight_in
      (edges (fold_left
                (fun G e => add_edge (fst (fst e)) (snd (fst e)) (snd e) G)
                counts G)) a b = Some w'.
Proof.
  revert G w. induction counts as [|[[u v] n] counts IH]; intros G w H; simpl.
  - now exists w.
  - destruct (same_edge a b u v) eqn:E.
    + apply (IH _ n). cbn [add_edge edges]. now rewrite set_weight_lookup, E.
    + apply (IH _ w). cbn [add_edge edges]. now rewrite set_weight_lookup, E.
Qed.

Lemma build_graph_has_edge (counts : list (string * string * nat))
  (u v : string) (n : nat) :
  In (u, v, n) counts ->
  exists w, edge_weight_in (edges (build_graph counts)) u v = Some w.
Proof.
  unfold build_graph. generalize empty_graph.
  induction counts as [|[[a b] m] counts IH]; intros G Hin; [destruct Hin|].
  simpl. destruct Hin as [E|Hin].
  - inversion E; subst. apply (fold_add_edge_keeps _ _ _ _ n).
    cbn [add_edge edges]. apply set_weight_has.
  - now apply IH.
Qed.

Lemma fold_add_edge_sources (all counts : list (string * string * nat))
  (G : Graph) :
  (forall e, In e counts -> In e all) ->
  (forall a b w, In (a, b, w) (edges G) ->
                 exists a' b', In (a', b', w) all /\ same_edge a b a' b' = true) ->
  forall a b w,
    In (a, b, w)
       (edges (fold_left
                 (fun G e => add_edge (fst (fst e)) (snd (fst e)) (snd e) G)
                 counts G)) ->
    exists a' b', In (a', b', w) all /\ same_edge a b a' b' = true.
Proof.
  revert G. induction counts as [|[[u v] n] counts IH]; intros G Hall HG;
    simpl; [exact HG|].
  apply IH.
  - intros e He. apply Hall. now right.
  - cbn [add_edge edges]. intros a b w Hin. apply set_weight_In in Hin.
    destruct Hin as [Hin|[-> [Hs _]]].
    + now apply HG.
    + exists u, v. split; [apply Hall; now left|]. now rewrite same_edge_sym.
Qed.

Lemma build_graph_sources (counts : list (string * string * nat))
  (a b : string) (w : nat) :
  In (a, b, w) (edges (build_graph counts)) ->
  exists a' b', In (a', b', w) counts /\ same_edge a b a' b' = true.
Proof.
  apply fold_add_edge_sources; [auto|]. intros x y z [].
Qed.

Lemma occurrences_app {K : Type} (eqb : K -> K -> bool) (k : K)
  (l1 l2 : list K) :
  occurrences eqb k (l1 ++ l2)
  = (occurrences eqb k l1 + occurrences eqb k l2)%nat.
Proof. unfold occurrences. now rewrite filter_app, length_app. Qed.

Lemma occurrences_pair_map (u v x : string) (l : list string) :
  occurrences edge_eqb (u, v) (map (pair x) l)
  = if String.eqb u x then occurrences String.eqb v l else 0%nat.
Proof.
  unfold occurrences, edge_eqb. induction l as [|y l IH]; simpl.
  - now destruct (String.eqb u x).
  - destruct (String.eqb u x); simpl in *; [|exact IH].
    destruct (String.eqb v y); simpl; now rewrite IH.
Qed.

Lemma occurrences_NoDup (v : string) (l : list string) :
  NoDup l ->
  occurrences String.eqb v l
  = if existsb (String.eqb v) l then 1%nat else 0%nat.
Proof.
  unfold occurrences. induction l as [|y l IH]; simpl; intro H; [reflexivity|].
  inversion H as [|? ? Hy Hl]; subst. specialize (IH Hl).
  destruct (String.eqb v y) eqn:E; simpl; [|exact IH].
  apply String.eqb_eq in E. subst y.
  destruct (existsb (String.eqb v) l) eqn:Ex.
  - apply (existsb_eqb_In String.eqb String.eqb_eq) in Ex. contradiction.
  - now rewrite IH.
Qed.

Lemma combinations_orientations (u v : string) (l : list string) :
  NoDup l -> u <> v ->
  (occurrences edge_eqb (u, v) (combinations l)
   + occurrences edge_eqb (v, u) (combinations l))%nat
  = if existsb (String.eqb u) l && existsb (String.eqb v) l
    then 1%nat else 0%nat.
Proof.
  intros Hnd Huv. induction l as [|x l IH]; [reflexivity|].
  inversion Hnd as [|? ? Hx Hl]; subst. specialize (IH Hl).
  cbn [combinations existsb]. rewrite !occurrences_app, !occurrences_pair_map.
  rewrite !(occurrences_NoDup _ l Hl).
  destruct (String.eqb u x) eqn:Eu; destruct (String.eqb v x) eqn:Ev.
  - apply String.eqb_eq in Eu, Ev. congruence.
  - apply String.eqb_eq in Eu. subst x.
    assert (Hu : existsb (String.eqb u) l = false).
    { apply not_true_is_false. intro H.
      now apply (existsb_eqb_In String.eqb String.eqb_eq) in H. }
    rewrite Hu in IH. cbn [andb orb] in *.
    destruct (existsb (String.eqb v) l); lia.
  - apply String.eqb_eq in Ev. subst x.
    assert (Hv : existsb (String.eqb v) l = false).
    { apply not_true_is_false. intro H.
      now apply (existsb_eqb_In String.eqb String.eqb_eq) in H. }
    rewrite Hv, andb_false_r in IH. cbn [andb orb] in *.
    destruct (existsb (String.eqb u) l); simpl; lia.
  - cbn [orb]. lia.
Qed.

Lemma cooccurrences_split (collab_df : list (Z * list string)) (u v : string) :
  (forall pid names, In (pid, names) collab_df -> NoDup names) ->
  u <> v ->
  cooccurrences collab_df u v
  = (occurrences edge_eqb (u, v) (edge_list collab_df)
     + occurrences edge_eqb (v, u) (edge_list collab_df))%nat.
Proof.
  intros Hnd Huv. induction collab_df as [|[pid names] l IH]; [reflexivity|].
  assert (IH' := IH (fun p n H => Hnd p n (or_intror H))).
  unfold cooccurrences in *. cbn [filter edge_list flat_map snd].
  rewrite !occurrences_app.
  pose proof (combinations_orientations u v names
                (Hnd pid names (or_introl eq_refl)) Huv) as Hc.
  fold (edge_list l).
  destruct (existsb (String.eqb u) names && existsb (String.eqb v) names);
    cbn [List.length]; lia.
Qed.

(** X12.  The weight of an edge, for two different names.  The number of
    retained projects listing both is the number listing the first
    before the second plus the number listing the second before the
    first.  The edge is absent exactly when no retained project lists
    both; when present, its weight is one of these two numbers, at least
    1 and at most the number of retained projects listing both; and when
    every such project lists the two names in the same order, the weight
    is that number of projects. *)
Theorem edge_weight_counts_one_orientation :
  forall (py : library) (cfg : config) (t : tables)
         (fig : Figure) (kept : list (Z * list string)) (u v : string),
    plot_collaboration_network py cfg t = Ok fig ->
    retained_projects py cfg t = Ok kept ->
    u <> v ->
    let forward := occurrences edge_eqb (u, v) (edge_list kept) in
    let backward := occurrences edge_eqb (v, u) (edge_list kept) in
    cooccurrences kept u v = (forward + backward)%nat /\
    (edge_weight (graph fig) u v = None <-> cooccurrences kept u v = 0%nat) /\
    (forall w,
        edge_weight (graph fig) u v = Some w ->
        (w = forward \/ w = backward) /\
        (1 <= w <= cooccurrences kept u v)%nat) /\
    (backward = 0%nat -> (1 <= forward)%nat ->
     edge_weight (graph fig) u v = Some (cooccurrences kept u v)).
Proof.
  intros py cfg t fig kept u v Hplot Hkept Huv forward backward.
  destruct (plot_retained _ _ _ _ Hplot) as [kept' [Hkept' Hg]].
  rewrite Hkept in Hkept'. injection Hkept' as <-.
  assert (Hsplit : cooccurrences kept u v = (forward + backward)%nat).
  { apply cooccurrences_split; [|assumption].
    intros pid names Hin. exact (retained_names_NoDup _ _ _ _ _ _ Hkept Hin). }
  assert (Hsrc : forall w, edge_weight (graph fig) u v = Some w ->
                           (w = forward \/ w = backward) /\ (1 <= w)%nat).
  { intros w Hw. unfold edge_weight in Hw. rewrite Hg in Hw.
    apply edge_weight_in_Some in Hw. destruct Hw as [a [b [Hin Hs]]].
    apply build_graph_sources in Hin. destruct Hin as [a' [b' [Hin Hs']]].
    apply (Counter_entries edge_eqb edge_eqb_spec) in Hin.
    destruct Hin as [-> Hpos]. split; [|assumption].
    rewrite <- (same_edge_congr u v a b a' b' Hs) in Hs'.
    apply same_edge_iff in Hs'.
    destruct Hs' as [[<- <-]|[<- <-]]; [left|right]; reflexivity. }
  assert (Hex : (1 <= forward)%nat \/ (1 <= backward)%nat ->
                exists w, edge_weight (graph fig) u v = Some w).
  { unfold edge_weight. rewrite Hg. intros [H|H].
    - apply (build_graph_has_edge _ u v forward).
      now apply (Counter_entries edge_eqb edge_eqb_spec).
    - rewrite edge_weight_in_swap. apply (build_graph_has_edge _ v u backward).
      now apply (Counter_entries edge_eqb edge_eqb_spec). }
  split; [exact Hsplit|]. split; [|split].
  - split.
    + intro Hnone. destruct (Nat.eq_dec (cooccurrences kept u v) 0) as [E|E];
        [assumption|].
      destruct Hex as [w Hw]; [lia|]. congruence.
    + intro Hz. destruct (edge_weight (graph fig) u v) as [w|] eqn:E;
        [|reflexivity].
      destruct (Hsrc w eq_refl) as [[-> | ->] Hpos]; lia.
  - intros w Hw. destruct (Hsrc w Hw) as [Hor Hpos].
    split; [assumption|]. destruct Hor as [-> | ->]; lia.
  - intros Hb Hf. destruct Hex as [w Hw]; [now left|].
    rewrite Hw. f_equal. destruct (Hsrc w Hw) as [[-> | ->] Hpos]; lia.
Qed.

Lemma edge_weight_counts_one_orientation_witness :
  edge_weight
    {| nodes := ["Inst A"; "Inst B"; "Inst C"];
       edges := [("Inst A", "Inst B", 2%nat); ("Inst A", "Inst C", 1%nat);
                 ("Inst B", "Inst C", 1%nat)] |} "Inst A" "Inst B"
  = Some (cooccurrences [(1%Z, ["Inst A"; "Inst B"; "Inst C"]);
                         (2%Z, ["Inst A"; "Inst B"])] "Inst A" "Inst B").
Proof.
  destruct (edge_weight_counts_one_orientation plain default_config
              scenario
              {| graph :=
                   {| nodes := ["Inst A"; "Inst B"; "Inst C"];
                      edges := [("Inst A", "Inst B", 2%nat);
                                ("Inst A", "Inst C", 1%nat);
                                ("Inst B", "Inst C", 1%nat)] |};
                 title := "Institution Collaboration Network" |}
              [(1%Z, ["Inst A"; "Inst B"; "Inst C"]);
               (2%Z, ["Inst A"; "Inst B"])] "Inst A" "Inst B"
              eq_refl eq_refl ltac:(discriminate))
    as [_ [_ [_ Hsame]]].
  apply Hsame.
  - reflexivity.
  - vm_compute. lia.
Defined.

(** ** The edge view and the traces *)

Lemma list_sum_map_add {A : Type} (f g : A -> nat) (l : list A) :
  list_sum (map (fun x => (f x + g x)%nat) l)
  = (list_sum (map f l) + list_sum (map g l))%nat.
Proof. induction l as [|x l IH]; simpl; [reflexivity|]. rewrite IH. lia. Qed.

Lemma neighbours_yields (G : Graph) (n : string) (seen : list string) :
  List.length (filter (fun nbr => negb (existsb (String.eqb nbr) seen))
                      (neighbours G n))
  = list_sum (map (fun e => yields e n seen) (edges G)).
Proof.
  unfold neighbours. induction (edges G) as [|[[a b] w] es IH]; simpl;
    [reflexivity|].
  rewrite filter_app, length_app, IH. f_equal.
  destruct (String.eqb a n); simpl.
  - now destruct (existsb (String.eqb b) seen).
  - destruct (String.eqb b n); simpl; [|reflexivity].
    now destruct (existsb (String.eqb a) seen).
Qed.

Lemma edges_from_length (G : Graph) (ns seen : list string) :
  List.length (edges_from G ns seen)
  = list_sum (map (fun e => yields_from e ns seen) (edges G)).
Proof.
  revert seen. induction ns as [|n ns IH]; intro seen; simpl.
  - induction (edges G) as [|e es IHe]; simpl; [reflexivity|exact IHe].
  - rewrite length_app, length_map, neighbours_yields, IH.
    now rewrite <- list_sum_map_add.
Qed.

Lemma yields_from_seen_first (a b : string) (w : nat) (ns seen : list string) :
  In a seen -> ~ In a ns -> yields_from (a, b, w) ns seen = 0%nat.
Proof.
  revert seen. induction ns as [|n ns IH]; intros seen Hs Hn; simpl;
    [reflexivity|].
  assert (Ea : String.eqb a n = false).
  { apply String.eqb_neq. intro E. apply Hn. now left. }
  rewrite Ea, (proj2 (existsb_eqb_In String.eqb String.eqb_eq a seen) Hs).
  rewrite IH; [now destruct (String.eqb b n)|now right|].
  intro H. apply Hn. now right.
Qed.

Lemma yields_from_seen_second (a b : string) (w : nat) (ns seen : list string) :
  In b seen -> ~ In b ns -> yields_from (a, b, w) ns seen = 0%nat.
Proof.
  revert seen. induction ns as [|n ns IH]; intros seen Hs Hn; simpl;
    [reflexivity|].
  assert (Eb : String.eqb b n = false).
  { apply String.eqb_neq. intro E. apply Hn. now left. }
  rewrite Eb, (proj2 (existsb_eqb_In String.eqb String.eqb_eq b seen) Hs).
  rewrite IH; [now destruct (String.eqb a n)|now right|].
  intro H. apply Hn. now right.
Qed.

Lemma not_seen (x : string) (seen : list string) :
  ~ In x seen -> existsb (String.eqb x) seen = false.
Proof.
  intro H. apply not_true_is_false. intro E.
  now apply (existsb_eqb_In String.eqb String.eqb_eq) in E.
Qed.

Lemma yields_from_once (a b : string) (w : nat) (ns seen : list string) :
  NoDup ns -> In a ns -> In b ns -> ~ In a seen -> ~ In b seen ->
  yields_from (a, b, w) ns seen = 1%nat.
Proof.
  revert seen. induction ns as [|n ns IH]; intros seen Hnd Ha Hb Hsa Hsb;
    [destruct Ha|].
  inversion Hnd as [|? ? Hn Hns]; subst. simpl.
  destruct (String.eqb a n) eqn:Ea.
  - apply String.eqb_eq in Ea. subst n. rewrite (not_seen b seen Hsb).
    rewrite yields_from_seen_first; [reflexivity|now left|assumption].
  - apply String.eqb_neq in Ea. destruct (String.eqb b n) eqn:Eb.
    + apply String.eqb_eq in Eb. subst n. rewrite (not_seen a seen Hsa).
      rewrite yields_from_seen_second; [reflexivity|now left|assumption].
    + apply String.eqb_neq in Eb. simpl. apply IH; try assumption.
      * destruct Ha as [E|Ha]; [congruence|assumption].
      * destruct Hb as [E|Hb]; [congruence|assumption].
      * intros [E|H]; [congruence|contradiction].
      * intros [E|H]; [congruence|contradiction].
Qed.

Lemma edges_view_length (G : Graph) :
  well_formed G -> List.length (edges_view G) = List.length (edges G).
Proof.
  intros [Hnd [Hends _]]. unfold edges_view. rewrite edges_from_length.
  assert (H : forall es,
             (forall a b w, In (a, b, w) es -> In a (nodes G) /\ In b (nodes G)) ->
             list_sum (map (fun e => yields_from e (nodes G) []) es)
             = List.length es).
  { induction es as [|[[a b] w] es IH]; intro He; simpl; [reflexivity|].
    destruct (He a b w (or_introl eq_refl)) as [Ha Hb].
    rewrite (yields_from_once a b w (nodes G) [] Hnd Ha Hb); [|tauto|tauto].
    rewrite IH; [reflexivity|]. intros; apply (He a0 b0 w0). now right. }
  now apply H.
Qed.

Lemma neighbours_In (G : Graph) (n x : string) :
  In x (neighbours G n) <->
  exists w, In (n, x, w) (edges G) \/ In (x, n, w) (edges G).
Proof.
  unfold neighbours. rewrite in_flat_map. split.
  - intros [[[a b] w] [Hin Hx]]. exists w.
    destruct (String.eqb a n) eqn:Ea.
    + apply String.eqb_eq in Ea. destruct Hx as [<-|[]]. subst. now left.
    + destruct (String.eqb b n) eqn:Eb; [|destruct Hx].
      apply String.eqb_eq in Eb. destruct Hx as [<-|[]]. subst. now right.
  - intros [w [H|H]].
    + exists (n, x, w). split; [assumption|]. rewrite String.eqb_refl. now left.
    + exists (x, n, w). split; [assumption|]. rewrite String.eqb_refl.
      destruct (String.eqb x n) eqn:E; [|now left].
      apply String.eqb_eq in E. subst. now left.
Qed.

Lemma edges_from_In (G : Graph) (ns seen : list string) (a b : string) :
  In (a, b) (edges_from G ns seen) -> In a ns /\ In b (neighbours G a).
Proof.
  revert seen. induction ns as [|n ns IH]; intro seen; simpl; [tauto|].
  rewrite in_app_iff, in_map_iff. intros [[x [E Hx]]|H].
  - inversion E; subst. apply filter_In in Hx. tauto.
  - apply IH in H. tauto.
Qed.

Lemma edges_from_covers (G : Graph) (ns seen : list string)
  (a b : string) (w : nat) :
  In (a, b, w) (edges G) -> In a ns -> In b ns ->
  ~ In a seen -> ~ In b seen ->
  In (a, b) (edges_from G ns seen) \/ In (b, a) (edges_from G ns seen).
Proof.
  intro He. revert seen. induction ns as [|n ns IH];
    intros seen Ha Hb Hsa Hsb; [destruct Ha|].
  simpl. rewrite !in_app_iff.
  destruct (String.eqb_spec a n) as [->|Na].
  - left. left. apply in_map. apply filter_In. split.
    + apply neighbours_In. exists w. now left.
    + now rewrite (not_seen b seen Hsb).
  - destruct (String.eqb_spec b n) as [->|Nb].
    + right. left. apply in_map. apply filter_In. split.
      * apply neighbours_In. exists w. now right.
      * now rewrite (not_seen a seen Hsa).
    + destruct (IH (n :: seen)) as [H|H].
      * destruct Ha as [E|Ha]; [congruence|assumption].
      * destruct Hb as [E|Hb]; [congruence|assumption].
      * intros [E|H]; [congruence|contradiction].
      * intros [E|H]; [congruence|contradiction].
      * left. now right.
      * right. now right.
Qed.

(** X13.  [G.edges()] on the graph of a completed call yields every edge
    exactly once: as many pairs as the graph has edges, each of them an
    edge of the graph, and each edge of the graph in one of its two
    directions. *)
Theorem edges_view_yields_each_edge_once :
  forall (py : library) (cfg : config) (t : tables)
         (fig : Figure),
    plot_collaboration_network py cfg t = Ok fig ->
    List.length (edges_view (graph fig)) = List.length (edges (graph fig)) /\
    (forall a b, In (a, b) (edges_view (graph fig)) ->
                 exists w, edge_weight (graph fig) a b = Some w) /\
    (forall a b w, In (a, b, w) (edges (graph fig)) ->
                   In (a, b) (edges_view (graph fig)) \/
                   In (b, a) (edges_view (graph fig))).
Proof.
  intros py cfg t fig Hplot.
  destruct (plot_retained _ _ _ _ Hplot) as [kept [_ Hg]].
  pose proof (build_graph_well_formed (Counter edge_eqb (edge_list kept))) as Hwf.
  rewrite <- Hg in Hwf. split; [now apply edges_view_length|].
  destruct Hwf as [_ [Hends [_ Hd]]]. split.
  - intros a b Hin. apply edges_from_In in Hin. destruct Hin as [_ Hin].
    apply neighbours_In in Hin. destruct Hin as [w [H|H]]; exists w.
    + now apply distinct_edges_lookup.
    + unfold edge_weight. rewrite edge_weight_in_swap.
      now apply distinct_edges_lookup.
  - intros a b w Hin. destruct (Hends a b w Hin) as [Ha Hb].
    apply (edges_from_covers _ _ _ a b w); auto.
Qed.

Lemma edges_view_yields_each_edge_once_witness :
  exists w,
    edge_weight
      {| nodes := ["Inst A"; "Inst B"];
         edges := [("Inst A", "Inst B", 1%nat)] |} "Inst A" "Inst B" = Some w.
Proof.
  destruct (edges_view_yields_each_edge_once plain default_config
              reversed_listing
              {| graph := {| nodes := ["Inst A"; "Inst B"];
                             edges := [("Inst A", "Inst B", 1%nat)] |};
                 title := "Institution Collaboration Network" |} eq_refl)
    as [_ [Hsound _]].
  apply Hsound. simpl. left. reflexivity.
Defined.

Section DrawingFacts.
Context {coord : Type}.
Variable pos : string -> option (coord * coord).

Lemma position_outcome (n : string) :
  (exists p, pos n = Some p /\ position pos n = Ok p) \/
  (pos n = None /\ position pos n = Raise KeyError).
Proof.
  unfold position. destruct (pos n) as [p|]; [left; now exists p|now right].
Qed.

Lemma edge_segments_outcome (es : list (string * string)) :
  (exists s,
      edge_segments pos es = Ok s /\
      List.length (fst s) = (3 * List.length es)%nat /\
      List.length (snd s) = (3 * List.length es)%nat /\
      forall a b, In (a, b) es -> pos a <> None /\ pos b <> None) \/
  (edge_segments pos es = Raise KeyError /\
   exists a b, In (a, b) es /\ (pos a = None \/ pos b = None)).
Proof.
  induction es as [|[u v] es IH]; simpl.
  - left. exists ([], []).
    split; [reflexivity|]. split; [reflexivity|]. split; [reflexivity|].
    intros a b [].
  - destruct (position_outcome u) as [[p0 [E0 ->]]|[E0 ->]]; cbn [bind].
    2:{ right. split; [reflexivity|]. exists u, v. split; [now left|now left]. }
    destruct (position_outcome v) as [[p1 [E1 ->]]|[E1 ->]]; cbn [bind].
    2:{ right. split; [reflexivity|]. exists u, v. split; [now left|now right]. }
    destruct IH as [[s [-> [Hx [Hy Hp]]]]|[-> [a [b [Hin Hn]]]]]; cbn [bind].
    + left. eexists. split; [reflexivity|]. cbn [fst snd app List.length].
      rewrite Hx, Hy. split; [lia|]. split; [lia|].
      intros a b [E|H]; [inversion E; subst; split; congruence|].
      now apply (Hp a b).
    + right. split; [reflexivity|]. exists a, b. split; [now right|assumption].
Qed.

Lemma node_markers_outcome (ns : list string) :
  (exists m,
      node_markers pos ns = Ok m /\
      snd m = ns /\
      List.length (fst (fst m)) = List.length ns /\
      List.length (snd (fst m)) = List.length ns /\
      forall n, In n ns -> pos n <> None) \/
  (node_markers pos ns = Raise KeyError /\ exists n, In n ns /\ pos n = None).
Proof.
  induction ns as [|n ns IH]; simpl.
  - left. exists ([], [], []).
    split; [reflexivity|]. split; [reflexivity|]. split; [reflexivity|].
    split; [reflexivity|]. intros n [].
  - destruct (position_outcome n) as [[p [E ->]]|[E ->]]; cbn [bind].
    2:{ right. split; [reflexivity|]. exists n. split; [now left|assumption]. }
    destruct IH as [[m [-> [Ht [Hx [Hy Hp]]]]]|[-> [x [Hin Hn]]]]; cbn [bind].
    + left. eexists. split; [reflexivity|]. cbn [fst snd List.length].
      rewrite Ht, Hx, Hy.
      split; [reflexivity|]. split; [reflexivity|]. split; [reflexivity|].
      intros x [<-|Hx']; [congruence|now apply Hp].
    + right. split; [reflexivity|]. exists x. split; [now right|assumption].
Qed.
End DrawingFacts.

(** X14.  Drawing the figure of a completed call.  The two loops
    complete exactly when the layout holds a position for every node of
    the graph, and otherwise raise KeyError.  When they complete, the
    node labels are the nodes of the graph in insertion order with one x
    and one y each, the edge trace holds three entries per edge of the
    graph on each axis, and the title is that of the figure. *)
Theorem draw_outcomes :
  forall (coord : Type) (pos : string -> option (coord * coord))
         (py : library) (cfg : config) (t : tables)
         (fig : Figure),
    plot_collaboration_network py cfg t = Ok fig ->
    ((exists d, draw pos fig = Ok d) <->
     forall n, In n (nodes (graph fig)) -> pos n <> None) /\
    (forall e, draw pos fig = Raise e -> e = KeyError) /\
    (forall d,
        draw pos fig = Ok d ->
        node_text d = nodes (graph fig) /\
        List.length (node_x d) = List.length (nodes (graph fig)) /\
        List.length (node_y d) = List.length (nodes (graph fig)) /\
        List.length (edge_x d) = (3 * List.length (edges (graph fig)))%nat /\
        List.length (edge_y d) = (3 * List.length (edges (graph fig)))%nat /\
        drawing_title d = title fig).
Proof.
  intros coord pos py cfg t fig Hplot.
  destruct (plot_retained _ _ _ _ Hplot) as [kept [_ Hg]].
  pose proof (build_graph_well_formed (Counter edge_eqb (edge_list kept))) as Hwf.
  rewrite <- Hg in Hwf.
  pose proof (edges_view_length _ Hwf) as Hlen.
  assert (Hview : forall a b, In (a, b) (edges_view (graph fig)) ->
                              In a (nodes (graph fig)) /\ In b (nodes (graph fig))).
  { intros a b Hin. apply edges_from_In in Hin. destruct Hin as [Ha Hb].
    split; [assumption|]. apply neighbours_In in Hb.
    destruct Hwf as [_ [Hends _]].
    destruct Hb as [w [H|H]]; apply Hends in H; tauto. }
  unfold draw.
  destruct (edge_segments_outcome pos (edges_view (graph fig)))
    as [[s [-> [Hx [Hy Hp]]]]|[-> [a [b [Hin Hn]]]]]; cbn [bind].
  - destruct (node_markers_outcome pos (nodes (graph fig)))
      as [[m [-> [Ht [Hnx [Hny Hnp]]]]]|[-> [n [Hin Hn]]]]; cbn [bind].
    + split; [|split].
      * split; [intros _; exact Hnp|intros _; eexists; reflexivity].
      * intros e H. discriminate.
      * intros d H. injection H as <-.
        cbn [node_text node_x node_y edge_x edge_y drawing_title].
        rewrite <- Hlen. repeat split; assumption.
    + split; [|split].
      * split; [intros [d H]; discriminate|].
        intro H. now apply H in Hin.
      * intros e H. now injection H as <-.
      * intros d H. discriminate.
  - split; [|split].
    + split; [intros [d H]; discriminate|].
      intro H. destruct (Hview a b Hin) as [Ha Hb].
      destruct Hn as [Hn|Hn]; [now apply H in Ha|now apply H in Hb].
    + intros e H. now injection H as <-.
    + intros d H. discriminate.
Qed.

Lemma draw_outcomes_witness :
  exists d : Drawing Z,
    draw triangle_layout
      {| graph :=
           {| nodes := ["Inst A"; "Inst B"; "Inst C"];
              edges := [("Inst A", "Inst B", 2%nat);
                        ("Inst A", "Inst C", 1%nat);
                        ("Inst B", "Inst C", 1%nat)] |};
         title := "Institution Collaboration Network" |} = Ok d.
Proof.
  apply (proj2 (proj1 (draw_outcomes Z triangle_layout plain
                         default_config scenario _ eq_refl))).
  intros n Hn. simpl in Hn.
  destruct Hn as [<-|[<-|[<-|[]]]]; discriminate.
Defined.

(** ** The substring tests *)

Lemma prefix_iff (p s : string) :
  String.prefix p s = true <-> exists post, s = (p ++ post)%string.
Proof.
  revert s. induction p as [|a p IH]; intro s.
  - destruct s; simpl; (split; [intros _; eexists; reflexivity|reflexivity]).
  - destruct s as [|b s]; simpl.
    + split; [discriminate|intros [post H]; discriminate].
    + destruct (ascii_dec a b) as [->|Hab].
      * rewrite IH. split; intros [post H]; exists post.
        -- now subst.
        -- now inversion H.
      * split; [discriminate|]. intros [post H]. injection H as E1 E2.
        congruence.
Qed.

Lemma str_in_iff (pat s : string) :
  str_in pat s = true <-> exists pre post, s = (pre ++ pat ++ post)%string.
Proof.
  split.
  - induction s as [|c s IH]; cbn [str_in]; rewrite orb_true_iff.
    + intros [H|H]; [|discriminate]. apply prefix_iff in H.
      destruct H as [post H]. now exists "", post.
    + intros [H|H].
      * apply prefix_iff in H. destruct H as [post H]. now exists "", post.
      * destruct (IH H) as [pre [post E]]. exists (String c pre), post.
        simpl. now rewrite E.
  - intros [pre [post E]]. revert s E. induction pre as [|c pre IH]; intros s E.
    + simpl in E. assert (H : String.prefix pat s = true).
      { apply prefix_iff. now exists post. }
      destruct s; cbn [str_in]; now rewrite H.
    + simpl in E. subst s. cbn [str_in]. rewrite (IH _ eq_refl).
      apply orb_true_r.
Qed.

Lemma restrict_to_projects_In (q : project_row -> bool)
  (P : list project_row) (O : list org_row) (r : org_row) :
  In r (restrict_to_projects (filter q P) O) <->
  In r O /\ exists p, In p (filter q P) /\ p_projectID p = projectID r.
Proof.
  rewrite restrict_to_projects_filter, filter_In, in_project_exists.
  split; intros [Hr [p H]]; (split; [assumption|]); exists p.
  - rewrite filter_In. tauto.
  - rewrite filter_In in H. tauto.
Qed.

Lemma str_in_cell_iff (pat : string) (v : option string) :
  str_in_cell pat v = true <->
  exists s pre post, v = Some s /\ s = (pre ++ pat ++ post)%string.
Proof.
  unfold str_in_cell. destruct v as [s|].
  - rewrite str_in_iff. split.
    + intros [pre [post E]]. now exists s, pre, post.
    + intros [s' [pre [post [E ->]]]]. injection E as ->. now exists pre, post.
  - split; [discriminate|]. intros [s [pre [post [E _]]]]. discriminate.
Qed.

(** X15.  What the tests written with Python's [in] keep.  On a project
    frame that holds a row, a non-empty field filter completes and keeps a
    project exactly when its sci_voc_titles is a str that holds the filter
    as a contiguous piece, and a turn of the project-type loop completes
    and keeps a project exactly when its fundingScheme is a str that holds
    the value as a contiguous piece; a cell that is not a str never
    passes.  Both keep the organization rows of the kept projects. *)
Theorem text_filters_keep_substrings :
  forall (c : ascii) (f call : string) (P : list project_row)
         (O : list org_row),
    P <> [] ->
    (exists st,
        step_field (Some (String c f)) (P, O) = Ok st /\
        (forall p,
            In p (fst st) <->
            In p P /\
            exists s pre post,
              sci_voc_titles p = Some s /\
              s = (pre ++ String c f ++ post)%string) /\
        (forall r,
            In r (snd st) <->
            In r O /\
            exists p, In p (fst st) /\ p_projectID p = projectID r)) /\
    (exists st,
        project_type_filter call (P, O) = Ok st /\
        (forall p,
            In p (fst st) <->
            In p P /\
            exists s pre post,
              fundingScheme p = Some s /\
              s = (pre ++ call ++ post)%string) /\
        (forall r,
            In r (snd st) <->
            In r O /\
            exists p, In p (fst st) /\ p_projectID p = projectID r)).
Proof.
  intros c f call P O Hne.
  destruct P as [|p0 P]; [contradiction|]. split.
  - unfold step_field. cbn [truthy_str fst snd arg_str is_nil].
    eexists. split; [reflexivity|]. cbn [fst snd]. split.
    + intro p. rewrite filter_In. now rewrite str_in_cell_iff.
    + intro r. apply restrict_to_projects_In.
  - unfold project_type_filter. cbn [fst snd is_nil].
    eexists. split; [reflexivity|]. cbn [fst snd]. split.
    + intro p. rewrite filter_In. now rewrite str_in_cell_iff.
    + intro r. apply restrict_to_projects_In.
Qed.

Lemma text_filters_keep_substrings_witness :
  exists st,
    step_field (Some "eco") ([proj 1], [org 1 "Inst A"]) = Ok st /\
    In (proj 1) (fst st).
Proof.
  destruct (proj1 (text_filters_keep_substrings "e" "co" "RIA" [proj 1]
                     [org 1 "Inst A"] ltac:(discriminate)))
    as [st [Hst [Hp _]]].
  exists st. split; [exact Hst|]. apply Hp.
  split; [now left|].
  exists "['ecosystems']", "['", "systems']". split; reflexivity.
Defined.

(** ** The empty figure *)

Lemma nodes_of_retained (kept : list (Z * list string)) (x : string) :
  In x (nodes (build_graph (Counter edge_eqb (edge_list kept)))) <->
  exists u v, In (u, v) (edge_list kept) /\ (x = u \/ x = v).
Proof.
  unfold build_graph. rewrite fold_add_edge_nodes. simpl. split.
  - intros [[]|[u [v [n [Hin Hx]]]]]. exists u, v.
    split; [|assumption]. now apply (Counter_keys edge_eqb) in Hin.
  - intros [u [v [Hin Hx]]]. right.
    exists u, v, (occurrences edge_eqb (u, v) (edge_list kept)).
    split; [|assumption]. apply (Counter_entries edge_eqb edge_eqb_spec).
    split; [reflexivity|].
    now apply (occurrences_positive edge_eqb edge_eqb_spec).
Qed.

Lemma edge_list_nil (kept : list (Z * list string)) :
  edge_list kept = [] <->
  forall pid names, In (pid, names) kept -> (List.length names < 2)%nat.
Proof.
  induction kept as [|[pid names] kept IH]; simpl.
  - split; [intros _ p n []|reflexivity].
  - split.
    + intro H. apply app_eq_nil in H. destruct H as [Hc Hl].
      intros p n [E|Hin].
      * inversion E; subst.
        pose proof (combinations_length n) as Hlen. rewrite Hc in Hlen.
        simpl in Hlen. destruct n as [|a [|b n]]; simpl in *; try lia.
        discriminate.
      * now apply (proj1 IH Hl p n).
    + intro H. rewrite (proj2 IH (fun p n Hin => H p n (or_intror Hin))).
      rewrite app_nil_r.
      specialize (H pid names (or_introl eq_refl)).
      destruct names as [|a [|b names]]; simpl in *; try reflexivity; lia.
Qed.

(** X16.  The figure of a completed call is empty exactly when no
    retained project lists two names (none qualifies, [max_projects] is
    0, or [min_participants] lets single participants through); drawing
    the empty figure completes with empty traces whatever the layout
    holds. *)
Theorem empty_figure_iff_no_pair :
  forall (py : library) (cfg : config) (t : tables)
         (fig : Figure) (kept : list (Z * list string)),
    plot_collaboration_network py cfg t = Ok fig ->
    retained_projects py cfg t = Ok kept ->
    (graph fig = empty_graph <->
     forall pid names, In (pid, names) kept -> (List.length names < 2)%nat) /\
    (graph fig = empty_graph ->
     forall (coord : Type) (pos : string -> option (coord * coord)),
       draw pos fig
       = Ok {| edge_x := []; edge_y := []; node_x := []; node_y := [];
               node_text := []; drawing_title := title fig |}).
Proof.
  intros py cfg t fig kept Hplot Hkept.
  destruct (plot_retained _ _ _ _ Hplot) as [kept' [Hkept' Hg]].
  rewrite Hkept in Hkept'. injection Hkept' as <-. split.
  - rewrite <- edge_list_nil. split.
    + intro He. rewrite He in Hg.
      destruct (edge_list kept) as [|[u v] l] eqn:El; [reflexivity|].
      assert (Hu : In u (nodes (build_graph (Counter edge_eqb (edge_list kept))))).
      { apply nodes_of_retained. exists u, v. rewrite El.
        split; [now left|now left]. }
      rewrite El, <- Hg in Hu. destruct Hu.
    + intro El. rewrite Hg, El. reflexivity.
  - intros He coord pos. unfold draw. now rewrite He.
Qed.

Lemma empty_figure_iff_no_pair_witness :
  draw triangle_layout
    {| graph := empty_graph; title := "Institution Collaboration Network" |}
  = Ok {| edge_x := []; edge_y := []; node_x := []; node_y := [];
          node_text := [];
          drawing_title := "Institution Collaboration Network" |}.
Proof.
  apply (proj2 (empty_figure_iff_no_pair plain
                  (with_limits default_config 0 2) scenario
                  {| graph := empty_graph;
                     title := "Institution Collaboration Network" |}
                  [] eq_refl eq_refl) eq_refl Z triangle_layout).
Defined.

Lemma project_name_pairs_deduplicated_witness :
  In (1%Z, "Inst A") (project_name_pairs (organization_df duplicate_rows)).
Proof.
  apply (proj2 (proj1 (proj2 (project_name_pairs_deduplicated
                                (organization_df duplicate_rows)))
                  1%Z "Inst A")).
  exists (org 1 "Inst A"). split; [now left|split; reflexivity].
Defined.

Lemma groupby_names_partition_witness :
  exists names,
    In (2%Z, names) (groupby_names [(2%Z, "Inst B"); (1%Z, "Inst A")]) /\
    In "Inst B" names.
Proof.
  apply (proj2 (proj2 (groupby_names_partition
                         [(2%Z, "Inst B"); (1%Z, "Inst A")]))).
  now left.
Defined.
